(** * Picsur backend: account store and authorization gate

    A shallow embedding of
    - [backend/src/collections/user-db/user-db.service.ts] ([UsersService]),
    - [backend/src/managers/auth/guards/main.guard.ts] ([MainAuthGuard]),
    together with the properties the specification states about them.

    The TypeORM repository is modelled as a finite map from primary key to
    row; every repository call may throw, which a script of scheduled
    outcomes in the world decides.  Every call to a collaborator that a
    property talks about leaves an event in a trace. *)

From stdpp Require Import gmap strings list fin_maps.

Open Scope string_scope.
Open Scope list_scope.

(** ** picsur-shared/dist/types: [Failable] *)

Record Failure := mkFailure { getReason : string }.

Inductive Failable (A : Type) :=
| Success (value : A)
| Failed (failure : Failure).
Arguments Success {A} value.
Arguments Failed {A} failure.

(** [Fail(reason)]: for a string the reason itself, for a caught [Error] its
    message; both are strings here. *)
Definition Fail {A : Type} (reason : string) : Failable A :=
  Failed (mkFailure reason).

Definition HasFailed {A : Type} (value : Failable A) : bool :=
  match value with Failed _ => true | Success _ => false end.

Definition HasSuccess {A : Type} (value : Failable A) : bool :=
  negb (HasFailed value).

(** A call that either returns or throws. *)
Inductive Thrown (E A : Type) :=
| Returned (value : A)
| Threw (exn : E).
Arguments Returned {E A} value.
Arguments Threw {E A} exn.

(** ** picsur-shared/dist/util/unique *)

(** Modelled from the spec: [makeUnique] is imported from picsur-shared and
    its body is not part of the sources at hand; the specification calls it
    deduplication of a role list.  The first occurrence of every element is
    kept, in order. *)
Fixpoint makeUnique (arr : list string) : list string :=
  match arr with
  | [] => []
  | value :: rest => value :: filter (λ other, other ≠ value) (makeUnique rest)
  end.

(** ** models/entities/user.entity *)

Record EUserBackend := mkUser {
  id : option string;
  username : string;
  hashedPassword : option string;
  roles : list string
}.

(** The shared DTO [EUser] has the shape of the entity. *)
Definition EUser : Type := EUserBackend.

Definition Permission : Type := string.
Definition Permissions : Type := list Permission.

(** ** The world: repository table, scheduled storage outcomes, trace *)

Inductive Query :=
| ByUsername (name : string)
| ById (uuid : string).

Inductive LogLevel := LogVerbose | LogWarn | LogError.

Inductive Event :=
| EvFindOne (where_ : Query) (getPrivate : bool)
| EvSave (entity : EUserBackend)
| EvRemove (entity : EUserBackend)
| EvBcryptHash (password : string)
| EvBcryptCompare (password hash : string)
| EvLog (level : LogLevel) (message : string).

Record World := mkWorld {
  rows : gmap string EUserBackend;
  (** outcome of the coming repository calls, in order: [Some message] makes
      the call throw an [Error] with that message; past the end of the
      script every call is answered *)
  faults : list (option string);
  trace : list Event
}.

Definition M (A : Type) : Type := World → A * World.

Definition ret {A : Type} (a : A) : M A := λ w, (a, w).

Definition bind {A B : Type} (m : M A) (k : A → M B) : M B :=
  λ w, let (a, w') := m w in k a w'.

Declare Scope picsur_scope.
Delimit Scope picsur_scope with picsur.
Notation "'await' x := c1 'in' c2" := (bind c1 (λ x, c2))
  (at level 10, x name, c1 at level 100, c2 at level 200) : picsur_scope.
Notation "'run' c1 'in' c2" := (bind c1 (λ _, c2))
  (at level 10, c1 at level 100, c2 at level 200) : picsur_scope.
Open Scope picsur_scope.

Definition emit (e : Event) : M unit :=
  λ w, (tt, mkWorld (rows w) (faults w) (trace w ++ [e])).

(** What the storage layer does with the coming call. *)
Definition storage_throws (w : World) : option string :=
  match faults w with
  | [] => None
  | outcome :: _ => outcome
  end.

Definition next_outcome : M (option string) :=
  λ w, (storage_throws w, mkWorld (rows w) (tail (faults w)) (trace w)).

(** Columns selected when [select] is left undefined: the hashed password is
    one of the "fields that aren't normally sent to the client". *)
Definition public_view (row : EUserBackend) : EUserBackend :=
  mkUser (id row) (username row) None (roles row).

Definition select_row (where_ : Query) (table : gmap string EUserBackend)
  : option EUserBackend :=
  match where_ with
  | ById uuid => table !! uuid
  | ByUsername name =>
      head (filter (λ row, username row = name) (snd <$> map_to_list table))
  end.

(** [usersRepository.findOne({ where, select })] *)
Definition repository_findOne (where_ : Query) (getPrivate : bool)
  : M (Thrown string (option EUserBackend)) :=
  run emit (EvFindOne where_ getPrivate) in
  await outcome := next_outcome in
  match outcome with
  | Some message => ret (Threw message)
  | None => λ w,
      let found := select_row where_ (rows w) in
      (Returned (if getPrivate then found else public_view <$> found), w)
  end.

(** The row a saved entity leaves in the table: columns the entity leaves
    undefined keep their stored value. *)
Definition merge_row (key : string) (stored : option EUserBackend)
  (entity : EUserBackend) : EUserBackend :=
  match stored with
  | None => mkUser (Some key) (username entity) (hashedPassword entity)
              (roles entity)
  | Some old =>
      mkUser (Some key) (username entity)
        (match hashedPassword entity with
         | Some h => Some h
         | None => hashedPassword old
         end)
        (roles entity)
  end.

(** [usersRepository.save(entity)]: an entity without primary key is
    inserted under a key the table does not hold yet, one with a key is
    written to its row.  The entity comes back with its key.  A violated
    constraint of the table is one of the ways the call throws. *)
Definition repository_save (entity : EUserBackend)
  : M (Thrown string EUserBackend) :=
  run emit (EvSave entity) in
  await outcome := next_outcome in
  match outcome with
  | Some message => ret (Threw message)
  | None => λ w,
      let key := match id entity with
                 | Some uuid => uuid
                 | None => fresh (dom (rows w))
                 end in
      (Returned (mkUser (Some key) (username entity) (hashedPassword entity)
                   (roles entity)),
       mkWorld (<[key := merge_row key (rows w !! key) entity]> (rows w))
         (faults w) (trace w))
  end.

(** [usersRepository.remove(entity)] *)
Definition repository_remove (entity : EUserBackend)
  : M (Thrown string EUserBackend) :=
  run emit (EvRemove entity) in
  await outcome := next_outcome in
  match outcome with
  | Some message => ret (Threw message)
  | None => λ w,
      (Returned entity,
       mkWorld (match id entity with
                | Some uuid => base.delete uuid (rows w)
                | None => rows w
                end)
         (faults w) (trace w))
  end.

(** [usersRepository.find({ take, skip })]: a page of the table, in the
    order the table lists its rows, with the columns of an undefined
    [select]. *)
Definition repository_find (take_ skip : Z)
  : M (Thrown string (list EUserBackend)) :=
  await outcome := next_outcome in
  match outcome with
  | Some message => ret (Threw message)
  | None => λ w,
      (Returned (take (Z.to_nat take_)
                   (drop (Z.to_nat skip)
                      (public_view <$> (snd <$> map_to_list (rows w))))),
       w)
  end.

(** The bulk statement of [removeRoleEveryone]:
    [UPDATE user SET roles = ARRAY_REMOVE(roles, :role)
     WHERE roles @> ARRAY[:role]].  [ARRAY_REMOVE] drops every element equal
    to [:role]; rows outside the [WHERE] clause are not written. *)
Definition array_remove (role : string) (row : EUserBackend) : EUserBackend :=
  if bool_decide (role ∈ roles row) then
    mkUser (id row) (username row) (hashedPassword row)
      (filter (λ held, held ≠ role) (roles row))
  else row.

Definition repository_update_array_remove (role : string)
  : M (Thrown string unit) :=
  await outcome := next_outcome in
  match outcome with
  | Some message => ret (Threw message)
  | None => λ w,
      (Returned tt,
       mkWorld (array_remove role <$> rows w) (faults w) (trace w))
  end.

Definition logger (level : LogLevel) (message : string) : M unit :=
  emit (EvLog level message).

(** ** models/constants: the protection classes *)

(** The constant lists of [roles.const] and [special-users.const] are not
    part of the sources at hand; the service is read for any value of
    them. *)
Class Constants := {
  DefaultRolesList : list string;
  SoulBoundRolesList : list string;
  ImmutableUsersList : list string;
  LockedLoginUsersList : list string;
  UndeletableUsersList : list string
}.

(** ** Collaborators of the service *)

Class Collaborators := {
  (** [bcrypt.hash(password, strength)] *)
  bcrypt_hash : string → Z → string;
  (** [bcrypt.compare(password, hash)] *)
  bcrypt_compare : string → string → bool;
  (** [prefService.getNumberPreference(SysPreference.BCryptStrength)] *)
  getNumberPreference_BCryptStrength : Failable Z;
  (** [rolesService.getPermissions(roles)] *)
  rolesService_getPermissions : list string → Failable Permissions
}.

(** ** collections/user-db/user-db.service.ts *)

Module UsersService.
Section Service.
Context {constants : Constants} {collaborators : Collaborators}.

(** [Array.prototype.includes] on a list of strings *)
Definition includes (list : list string) (item : string) : bool :=
  bool_decide (item ∈ list).

Definition filterAddedRoles (roles : list string) : list string :=
  filter (λ role, negb (includes SoulBoundRolesList role)) roles.

Definition getBCryptStrength : M Z :=
  ret (match getNumberPreference_BCryptStrength with
       | Failed _ => 12%Z
       | Success result => result
       end).

Definition findByUsername (username : string) (getPrivate : bool)
  : M (Failable EUserBackend) :=
  await found := repository_findOne (ByUsername username) getPrivate in
  match found with
  | Threw e => ret (Fail e)
  | Returned None => ret (Fail "User not found")
  | Returned (Some found) => ret (Success found)
  end.

Definition findOne (uuid : string) : M (Failable EUserBackend) :=
  await found := repository_findOne (ById uuid) false in
  match found with
  | Threw e => ret (Fail e)
  | Returned None => ret (Fail "User not found")
  | Returned (Some found) => ret (Success found)
  end.

Definition exists_ (username : string) : M bool :=
  await found := findByUsername username false in
  ret (HasSuccess found).

Definition create (username password : string) (roles : option (list string))
  (byPassRoleCheck : option bool) : M (Failable EUserBackend) :=
  await taken := exists_ username in
  if taken then ret (Fail "User already exists") else
  await strength := getBCryptStrength in
  run emit (EvBcryptHash password) in
  let hashedPassword := bcrypt_hash password strength in
  let user_roles :=
    if default false byPassRoleCheck then
      let rolesToAdd := default [] roles in
      makeUnique rolesToAdd
    else
      (* Strip soulbound roles and add default roles *)
      let rolesToAdd := filterAddedRoles (default [] roles) in
      makeUnique (DefaultRolesList ++ rolesToAdd) in
  let user := mkUser None username (Some hashedPassword) user_roles in
  await saved := repository_save user in
  match saved with
  | Returned saved => ret (Success saved)
  | Threw e => ret (Fail e)
  end.

Definition delete (uuid : string) : M (Failable EUserBackend) :=
  await userToModify := findOne uuid in
  match userToModify with
  | Failed failure => ret (Failed failure)
  | Success userToModify =>
      if includes UndeletableUsersList (username userToModify) then
        ret (Fail "Cannot delete system user")
      else
        await removed := repository_remove userToModify in
        match removed with
        | Returned removed => ret (Success removed)
        | Threw e => ret (Fail e)
        end
  end.

Definition setRoles (uuid : string) (roles_ : list string)
  : M (Failable EUserBackend) :=
  await userToModify := findOne uuid in
  match userToModify with
  | Failed failure => ret (Failed failure)
  | Success userToModify =>
      if includes ImmutableUsersList (username userToModify) then
        (* Just fail silently *)
        run logger LogVerbose
              "User tried to modify system user, failed silently" in
        ret (Success userToModify)
      else
        let rolesToKeep :=
          filter (λ role, includes SoulBoundRolesList role)
            (roles userToModify) in
        let rolesToAdd := filterAddedRoles roles_ in
        let newRoles := makeUnique (rolesToKeep ++ rolesToAdd) in
        let userToModify :=
          mkUser (id userToModify) (username userToModify)
            (hashedPassword userToModify) newRoles in
        await saved := repository_save userToModify in
        match saved with
        | Returned saved => ret (Success saved)
        | Threw e => ret (Fail e)
        end
  end.

Definition getPermissions (uuid : string) : M (Failable Permissions) :=
  await userToModify := findOne uuid in
  match userToModify with
  | Failed failure => ret (Failed failure)
  | Success userToModify =>
      ret (rolesService_getPermissions (roles userToModify))
  end.

Definition authenticate (username_ password : string)
  : M (Failable EUserBackend) :=
  await user := findByUsername username_ true in
  match user with
  | Failed failure => ret (Failed failure)
  | Success user =>
      if includes LockedLoginUsersList (username user) then
        (* Error should be kept in backend *)
        ret (Fail "Wrong username")
      else
        await matches :=
          (run emit (EvBcryptCompare password
                       (default "" (hashedPassword user))) in
           ret (bcrypt_compare password (default "" (hashedPassword user)))) in
        if negb matches then ret (Fail "Wrong password")
        else findOne (default "" (id user))
  end.

Definition removeRoleEveryone (role : string) : M (Failable bool) :=
  await updated := repository_update_array_remove role in
  match updated with
  | Threw e => ret (Fail e)
  | Returned _ => ret (Success true)
  end.

Definition updatePassword (uuid password : string)
  : M (Failable EUserBackend) :=
  await userToModify := findOne uuid in
  match userToModify with
  | Failed failure => ret (Failed failure)
  | Success userToModify =>
      await strength := getBCryptStrength in
      run emit (EvBcryptHash password) in
      let userToModify :=
        mkUser (id userToModify) (username userToModify)
          (Some (bcrypt_hash password strength)) (roles userToModify) in
      await saved := repository_save userToModify in
      match saved with
      | Returned saved => ret (Success saved)
      | Threw e => ret (Fail e)
      end
  end.

(** [count] and [page] are read as integers. *)
Definition findMany (count page : Z) : M (Failable (list EUserBackend)) :=
  if (count <? 1)%Z || (page <? 0)%Z then ret (Fail "Invalid page")
  else if (count >? 100)%Z then ret (Fail "Too many results")
  else
    await found := repository_find count (count * page) in
    match found with
    | Returned found => ret (Success found)
    | Threw e => ret (Fail e)
    end.

End Service.
End UsersService.

(** ** managers/auth/guards/main.guard.ts *)

Inductive HttpException :=
| InternalServerErrorException
| ForbiddenException (message : string)
(** what the passport guard underneath may throw by itself *)
| UnauthorizedException.

(** A value of the metadata store, as [reflector.get] hands it out.
    [JsPermissions] is a well-formed permission array, [JsOther] any other
    defined value. *)
Inductive JsValue :=
| JsUndefined
| JsNull
| JsPermissions (permissions : Permissions)
| JsOther.

(** The [user] the passport strategies attach to the request. *)
Inductive RequestUser :=
| ShapedUser (user : EUser)
| MisshapenUser.

Record ExecutionContext := mkContext {
  (** [context.getHandler().name] *)
  handlerName : string;
  (** [reflector.get('permissions', context.getHandler())] *)
  handlerPermissions : JsValue;
  (** [reflector.get('permissions', context.getClass())] *)
  classPermissions : JsValue;
  (** [context.switchToHttp().getRequest().user] *)
  requestUser : RequestUser;
  (** what [AuthGuard(['jwt', 'guest']).canActivate(context)] comes to *)
  passportCanActivate : Thrown HttpException bool
}.

Module MainAuthGuard.
Section Guard.
Context {constants : Constants} {collaborators : Collaborators}.

(** Modelled from the spec: [isPermissionsArray] of
    [models/validators/permissions.validator] is not part of the sources at
    hand; it accepts the well-formed permission arrays and nothing else (a
    "malformed declaration" is rejected).  It is a type guard: [Some] hands
    out the value at the type it was narrowed to. *)
Definition isPermissionsArray (value : JsValue) : option Permissions :=
  match value with
  | JsPermissions permissions => Some permissions
  | _ => None
  end.

(** The nullish coalescing operator [??] *)
Definition nullish_or (left right : JsValue) : JsValue :=
  match left with
  | JsUndefined | JsNull => right
  | _ => left
  end.

Definition extractPermissions (context : ExecutionContext)
  : Failable Permissions :=
  let handlerName := handlerName context in
  (* Fall back to class permissions if none on function
     But function has higher priority than class *)
  let permissions :=
    nullish_or (handlerPermissions context) (classPermissions context) in
  match permissions with
  | JsUndefined =>
      Fail (handlerName +:+
            " does not have any permissions defined, denying access")
  | _ =>
      match isPermissionsArray permissions with
      | None =>
          Fail ("Permissions for " +:+ handlerName +:+ " is not a string array")
      | Some permissions => Success permissions
      end
  end.

(** Modelled from the spec: [EUserSchema.safeParse] of picsur-shared is not
    part of the sources at hand; it accepts an identity of the right shape
    and rejects a structurally invalid one. *)
Definition EUserSchema_safeParse (user : RequestUser) : option EUser :=
  match user with
  | ShapedUser user => Some user
  | MisshapenUser => None
  end.

Definition validateUser (user : RequestUser) : M (Thrown HttpException EUser) :=
  match EUserSchema_safeParse user with
  | None =>
      run logger LogWarn
            "Invalid user object, where it should always be valid" in
      ret (Threw InternalServerErrorException)
  | Some data => ret (Returned data)
  end.

(** JavaScript truthiness of an optional string: [!user.id] holds for
    [undefined] and for the empty string. *)
Definition truthy (value : option string) : bool :=
  match value with
  | Some text => negb (String.eqb text "")
  | None => false
  end.

Definition canActivate (context : ExecutionContext)
  : M (Thrown HttpException bool) :=
  (* Sanity check *)
  match passportCanActivate context with
  | Threw e => ret (Threw e)
  | Returned result =>
  if negb result then
    run logger LogError
          "Main Auth has denied access, this should not happen" in
    ret (Threw InternalServerErrorException)
  else
  await user := validateUser (requestUser context) in
  match user with
  | Threw e => ret (Threw e)
  | Returned user =>
  if negb (truthy (id user)) then
    run logger LogError "User has no id, this should not happen" in
    ret (Threw InternalServerErrorException)
  else
  (* These are the permissions required to access the route *)
  match extractPermissions context with
  | Failed failure =>
      run logger LogError
            ("Fetching route permission failed: " +:+ getReason failure) in
      ret (Threw InternalServerErrorException)
  | Success permissions =>
  (* These are the permissions the user has *)
  await userPermissions :=
    UsersService.getPermissions (default "" (id user)) in
  match userPermissions with
  | Failed failure =>
      run logger LogWarn
            ("Fetching user permissions failed: " +:+ getReason failure) in
      ret (Threw InternalServerErrorException)
  | Success userPermissions =>
  if forallb (λ permission, UsersService.includes userPermissions permission)
       permissions
  then ret (Returned true)
  else ret (Threw (ForbiddenException "Permission denied"))
  end end end end.

End Guard.
End MainAuthGuard.

(** ** Vocabulary of the properties *)

(** The world after one repository call that left the table alone. *)
Definition after_call (e : Event) (w : World) : World :=
  mkWorld (rows w) (tail (faults w)) (trace w ++ [e]).

(** The repository calls that write to the table. *)
Definition is_write (e : Event) : bool :=
  match e with
  | EvSave _ | EvRemove _ => true
  | _ => false
  end.

(** The key under which [repository_save] writes an entity. *)
Definition saved_key (entity : EUserBackend)
  (table : gmap string EUserBackend) : string :=
  match id entity with
  | Some uuid => uuid
  | None => fresh (dom table)
  end.

(** Every row carries the primary key it is stored under. *)
Definition well_keyed (table : gmap string EUserBackend) : Prop :=
  map_Forall (λ key row, id row = Some key) table.

#[global] Instance well_keyed_dec (table : gmap string EUserBackend) :
  Decision (well_keyed table).
Proof. unfold well_keyed. apply _. Defined.

(** Requests that create accounts and set roles, in sequence. *)
Inductive Request :=
| Create (username password : string) (roles : option (list string))
    (byPassRoleCheck : option bool)
| SetRoles (uuid : string) (roles : list string).

Section Requests.
Context {constants : Constants} {collaborators : Collaborators}.

Definition serve (request : Request) (w : World) : World :=
  match request with
  | Create username password roles byPassRoleCheck =>
      snd (UsersService.create username password roles byPassRoleCheck w)
  | SetRoles uuid roles => snd (UsersService.setRoles uuid roles w)
  end.

Definition serve_all (requests : list Request) (w : World) : World :=
  foldl (λ w request, serve request w) w requests.

(** What role updates keep of an account made without the bypass: no role
    twice, and every default role that is soulbound. *)
Definition settled (row : EUserBackend) : Prop :=
  NoDup (roles row) ∧
  ∀ role, role ∈ DefaultRolesList → role ∈ SoulBoundRolesList →
          role ∈ roles row.

End Requests.

(** Every kind of request that writes to the account table. *)
Inductive Operation :=
| OpCreate (username password : string) (roles : option (list string))
    (byPassRoleCheck : option bool)
| OpDelete (uuid : string)
| OpSetRoles (uuid : string) (roles : list string)
| OpRemoveRoleEveryone (role : string)
| OpUpdatePassword (uuid password : string).

Section Operations.
Context {constants : Constants} {collaborators : Collaborators}.

Definition perform (operation : Operation) (w : World) : World :=
  match operation with
  | OpCreate username password roles byPassRoleCheck =>
      snd (UsersService.create username password roles byPassRoleCheck w)
  | OpDelete uuid => snd (UsersService.delete uuid w)
  | OpSetRoles uuid roles => snd (UsersService.setRoles uuid roles w)
  | OpRemoveRoleEveryone role => snd (UsersService.removeRoleEveryone role w)
  | OpUpdatePassword uuid password =>
      snd (UsersService.updatePassword uuid password w)
  end.

Definition perform_all (operations : list Operation) (w : World) : World :=
  foldl (λ w operation, perform operation w) w operations.

End Operations.

(** No role twice on any account. *)
Definition roles_distinct (table : gmap string EUserBackend) : Prop :=
  map_Forall (λ _ row, NoDup (roles row)) table.

#[global] Instance roles_distinct_dec (table : gmap string EUserBackend) :
  Decision (roles_distinct table).
Proof. unfold roles_distinct. apply _. Defined.

(** No username on two rows. *)
Definition usernames_unique (table : gmap string EUserBackend) : Prop :=
  ∀ key1 key2 row1 row2,
    table !! key1 = Some row1 → table !! key2 = Some row2 →
    username row1 = username row2 → key1 = key2.

(** The storage layer answers the coming [n] repository calls. *)
Definition answers (n : nat) (w : World) : Prop :=
  Forall (λ outcome, outcome = None) (take n (faults w)).

#[global] Instance answers_dec (n : nat) (w : World) : Decision (answers n w).
Proof. unfold answers. apply _. Defined.

(** ** A concrete installation, for worked examples *)

Definition demo_constants : Constants := {|
  DefaultRolesList := ["viewer"];
  SoulBoundRolesList := ["guest"];
  ImmutableUsersList := ["admin"];
  LockedLoginUsersList := ["guest"];
  UndeletableUsersList := ["admin"; "guest"]
|}.

Definition demo_collaborators : Collaborators := {|
  bcrypt_hash := λ password _, "$2b$" +:+ password;
  bcrypt_compare := λ password hash, String.eqb hash ("$2b$" +:+ password);
  getNumberPreference_BCryptStrength := Fail "Preference not set";
  rolesService_getPermissions := λ roles,
    Success (makeUnique
      (mjoin ((λ role,
         if String.eqb role "admin" then ["image-view"; "image-upload";
                                          "user-manage"]
         else if String.eqb role "viewer" then ["image-view"]
         else if String.eqb role "editor" then ["image-view"; "image-upload"]
         else if String.eqb role "guest" then ["image-view"]
         else []) <$> roles)))
|}.

Definition admin_row : EUserBackend :=
  mkUser (Some "1") "admin" (Some "$2b$picsur") ["admin"; "viewer"].
Definition guest_row : EUserBackend :=
  mkUser (Some "2") "guest" (Some "$2b$open") ["guest"].
Definition bob_row : EUserBackend :=
  mkUser (Some "3") "bob" (Some "$2b$hunter2") ["viewer"].

Definition demo_table : gmap string EUserBackend :=
  <["1" := admin_row]> (<["2" := guest_row]> (<["3" := bob_row]> ∅)).

(** The storage layer answers every call. *)
Definition demo_world : World := mkWorld demo_table [] [].

(** The storage layer throws at the first call and answers afterwards. *)
Definition flaky_world : World :=
  mkWorld demo_table [Some "Connection terminated"] [].

(** The account of the scenario: "alice" created with the role "editor". *)
Definition alice_row : EUserBackend :=
  mkUser (Some "0") "alice" (Some "$2b$wonderland") ["viewer"; "editor"].

Definition alice_world : World :=
  mkWorld (<["0" := alice_row]> demo_table) []
    [EvFindOne (ByUsername "alice") false; EvBcryptHash "wonderland";
     EvSave (mkUser None "alice" (Some "$2b$wonderland")
               ["viewer"; "editor"])].

(** The account "guest" after a role update that requests "editor",
    "guest" and "editor" again. *)
Definition guest_updated : EUserBackend :=
  mkUser (Some "2") "guest" None ["guest"; "editor"].

Definition guest_updated_world : World :=
  mkWorld
    (<["2" := mkUser (Some "2") "guest" (Some "$2b$open")
                ["guest"; "editor"]]> demo_table)
    [] [EvFindOne (ById "2") false; EvSave guest_updated].

(** Routes of the image controller: the class declares [image-view], the
    upload method declares [image-upload] itself. *)
Definition upload_context : ExecutionContext :=
  mkContext "uploadImage" (JsPermissions ["image-upload"])
    (JsPermissions ["image-view"]) (ShapedUser (public_view admin_row))
    (Returned true).

Definition meta_context : ExecutionContext :=
  mkContext "getImageMeta" JsUndefined (JsPermissions ["image-view"])
    (ShapedUser (public_view guest_row)) (Returned true).

(** "bob" asks for the upload route. *)
Definition bob_upload_context : ExecutionContext :=
  mkContext "uploadImage" (JsPermissions ["image-upload"])
    (JsPermissions ["image-view"]) (ShapedUser (public_view bob_row))
    (Returned true).

(** A request whose identity has no id. *)
Definition anonymous_context : ExecutionContext :=
  mkContext "getImage" JsUndefined (JsPermissions ["image-view"])
    (ShapedUser (mkUser None "guest" None ["guest"])) (Returned true).

(** An account made by the system with the bypass. *)
Definition root_row : EUserBackend :=
  mkUser (Some "0") "root" (Some "$2b$toor") ["guest"; "admin"].

(** A route without any declaration. *)
Definition undeclared_context : ExecutionContext :=
  mkContext "me" JsUndefined JsUndefined (ShapedUser (public_view bob_row))
    (Returned true).

(** * Properties *)

(** ** Deduplication *)

Lemma elem_of_makeUnique (arr : list string) (x : string) :
  x ∈ makeUnique arr ↔ x ∈ arr.
Proof.
  induction arr as [|value rest IH]; simpl; [done|].
  rewrite !elem_of_cons, list_elem_of_filter, IH.
  destruct (decide (x = value)) as [->|Hne]; [by split; left|].
  split; [intros [?|[_ ?]]; auto | intros [?|?]; auto].
Qed.

Lemma NoDup_makeUnique (arr : list string) : NoDup (makeUnique arr).
Proof.
  induction arr as [|value rest IH]; simpl; [constructor|].
  apply NoDup_cons. split.
  - rewrite list_elem_of_filter. by intros [Hne _].
  - by apply NoDup_filter.
Qed.

(** ** The repository *)

Lemma select_by_id (uuid : string) (table : gmap string EUserBackend) :
  select_row (ById uuid) table = table !! uuid.
Proof. done. Qed.

Lemma select_by_username_Some (name : string)
  (table : gmap string EUserBackend) (found : EUserBackend) :
  select_row (ByUsername name) table = Some found →
  username found = name ∧ ∃ key, table !! key = Some found.
Proof.
  unfold select_row. intros Hhead%head_Some_elem_of.
  apply list_elem_of_filter in Hhead as [Hname Hin]. split; [done|].
  apply list_elem_of_fmap in Hin as [[key row] [-> Hin]].
  exists key. by apply elem_of_map_to_list.
Qed.

Lemma select_by_username_stored (table : gmap string EUserBackend)
  (key : string) (row : EUserBackend) :
  table !! key = Some row →
  is_Some (select_row (ByUsername (username row)) table).
Proof.
  intros Hrow. unfold select_row. apply head_is_Some.
  intros Hnil. eapply (filter_nil_not_elem_of _ _ row) in Hnil; [|done].
  apply Hnil, list_elem_of_fmap. exists (key, row). split; [done|].
  by apply elem_of_map_to_list.
Qed.

Lemma select_by_username_None (name : string)
  (table : gmap string EUserBackend) :
  select_row (ByUsername name) table = None ↔
  ∀ key row, table !! key = Some row → username row ≠ name.
Proof.
  split.
  - intros Hnone key row Hrow Hname.
    destruct (select_by_username_stored table key row Hrow) as [found Hfound].
    rewrite Hname in Hfound. congruence.
  - intros Hall. destruct (select_row (ByUsername name) table) as [found|] eqn:E;
      [|done].
    apply select_by_username_Some in E as [Hname [key Hkey]].
    by destruct (Hall key found Hkey).
Qed.

Lemma repository_findOne_run (where_ : Query) (getPrivate : bool) (w : World) :
  repository_findOne where_ getPrivate w =
  (match storage_throws w with
   | Some message => Threw message
   | None =>
       Returned (if getPrivate then select_row where_ (rows w)
                 else public_view <$> select_row where_ (rows w))
   end,
   after_call (EvFindOne where_ getPrivate) w).
Proof.
  unfold repository_findOne, bind, emit, next_outcome, ret, after_call,
    storage_throws. simpl.
  by destruct (faults w) as [|[message|] rest].
Qed.

Section ServiceFacts.
Context {constants : Constants} {collaborators : Collaborators}.
Import UsersService.

Lemma includes_spec (list : list string) (item : string) :
  includes list item = true ↔ item ∈ list.
Proof. unfold includes. apply bool_decide_eq_true. Qed.

Lemma includes_false (list : list string) (item : string) :
  includes list item = false ↔ item ∉ list.
Proof. unfold includes. apply bool_decide_eq_false. Qed.

Lemma elem_of_filterAddedRoles (requested : list string) (role : string) :
  role ∈ filterAddedRoles requested ↔
  role ∈ requested ∧ role ∉ SoulBoundRolesList.
Proof.
  unfold filterAddedRoles. rewrite list_elem_of_filter, negb_True.
  unfold includes. rewrite bool_decide_spec. tauto.
Qed.

Lemma findByUsername_run (name : string) (getPrivate : bool) (w : World) :
  findByUsername name getPrivate w =
  (match storage_throws w with
   | Some message => Fail message
   | None =>
       match select_row (ByUsername name) (rows w) with
       | None => Fail "User not found"
       | Some found =>
           Success (if getPrivate then found else public_view found)
       end
   end,
   after_call (EvFindOne (ByUsername name) getPrivate) w).
Proof.
  unfold findByUsername, bind. rewrite repository_findOne_run.
  destruct (storage_throws w); [done|].
  by destruct getPrivate, (select_row _ _).
Qed.

Lemma findOne_run (uuid : string) (w : World) :
  findOne uuid w =
  (match storage_throws w with
   | Some message => Fail message
   | None =>
       match rows w !! uuid with
       | None => Fail "User not found"
       | Some found => Success (public_view found)
       end
   end,
   after_call (EvFindOne (ById uuid) false) w).
Proof.
  unfold findOne, bind. rewrite repository_findOne_run, select_by_id.
  destruct (storage_throws w); [done|]. by destruct (rows w !! uuid).
Qed.

Lemma exists_run (name : string) (w : World) :
  exists_ name w =
  (match storage_throws w with
   | Some _ => false
   | None => bool_decide (is_Some (select_row (ByUsername name) (rows w)))
   end,
   after_call (EvFindOne (ByUsername name) false) w).
Proof.
  unfold exists_, bind. rewrite findByUsername_run.
  destruct (storage_throws w); [done|].
  by destruct (select_row _ _).
Qed.

End ServiceFacts.

Lemma repository_save_run (entity : EUserBackend) (w : World) :
  repository_save entity w =
  match storage_throws w with
  | Some message => (Threw message, after_call (EvSave entity) w)
  | None =>
      let key := saved_key entity (rows w) in
      (Returned (mkUser (Some key) (username entity) (hashedPassword entity)
                   (roles entity)),
       mkWorld (<[key := merge_row key (rows w !! key) entity]> (rows w))
         (tail (faults w)) (trace w ++ [EvSave entity]))
  end.
Proof.
  unfold repository_save, bind, emit, next_outcome, ret, after_call,
    storage_throws, saved_key. simpl.
  by destruct (faults w) as [|[message|] rest].
Qed.

Lemma saved_key_fresh (entity : EUserBackend)
  (table : gmap string EUserBackend) :
  id entity = None → table !! saved_key entity table = None.
Proof.
  intros Hid. unfold saved_key. rewrite Hid.
  apply not_elem_of_dom, is_fresh.
Qed.

(** ** Account creation *)

Section Creation.
Context {constants : Constants} {collaborators : Collaborators}.
Import UsersService.

(** The role list [create] gives the new account. *)
Lemma create_run (username_ password : string) (roles_ : option (list string))
  (bypass : option bool) (w : World) :
  exists_ username_ w = (false, after_call (EvFindOne (ByUsername username_) false) w) →
  ∃ user,
    id user = None ∧ username user = username_ ∧
    roles user =
      (if default false bypass then makeUnique (default [] roles_)
       else makeUnique (DefaultRolesList ++
                        filterAddedRoles (default [] roles_))) ∧
    create username_ password roles_ bypass w =
      (let (saved, w') :=
         repository_save user
           (mkWorld (rows w) (tail (faults w))
              (trace w ++ [EvFindOne (ByUsername username_) false;
                           EvBcryptHash password])) in
       (match saved with
        | Returned saved => Success saved
        | Threw e => Fail e
        end, w')).
Proof.
  intros Hfree.
  exists (mkUser None username_
            (Some (bcrypt_hash password
                     match getNumberPreference_BCryptStrength with
                     | Success result => result
                     | Failed _ => 12%Z
                     end))
            (if default false bypass then makeUnique (default [] roles_)
             else makeUnique (DefaultRolesList ++
                              filterAddedRoles (default [] roles_)))).
  split; [done|]. split; [done|]. split; [done|].
  unfold create, bind at 1. rewrite Hfree.
  unfold getBCryptStrength, bind, ret, emit, after_call. simpl.
  rewrite <- (assoc_L (++)). simpl.
  by destruct (repository_save _ _) as [[saved|e] w'].
Qed.

(** C9, as the code has it. For a username that an account already holds,
    and a storage layer that answers the lookup, [create] fails with "User
    already exists"; its only repository call is that lookup, so nothing is
    written and the table is the same afterwards.  (When the lookup throws,
    [exists] answers [false] and [create] goes on to the insert.) *)
Theorem create_existing_username (w : World) (username_ password : string)
  (roles_ : option (list string)) (bypass : option bool)
  (key : string) (row : EUserBackend) :
  rows w !! key = Some row →
  username row = username_ →
  storage_throws w = None →
  ∃ w', create username_ password roles_ bypass w =
          (Fail "User already exists", w') ∧
        rows w' = rows w ∧
        trace w' = trace w ++ [EvFindOne (ByUsername username_) false] ∧
        Forall (λ e, is_write e = false)
          [EvFindOne (ByUsername username_) false].
Proof.
  intros Hrow Hname Hcalm.
  exists (after_call (EvFindOne (ByUsername username_) false) w).
  split; [|split; [done|split; [done|by repeat constructor]]].
  unfold create, bind. rewrite exists_run, Hcalm.
  rewrite bool_decide_eq_true_2; [done|].
  rewrite <- Hname. by eapply select_by_username_stored.
Qed.

(** C10. [exists] has no failing outcome: whatever failure the lookup by
    username ends in, it answers [false].  When the storage layer throws
    during the lookup, also for a username that is stored, [create] goes
    on: it hashes the password and calls [save] with the new account, and
    what it returns is decided by that call alone; the failure of the lookup
    is not reported. *)
Theorem exists_swallows_lookup_failure (w : World)
  (username_ password message : string) (roles_ : option (list string))
  (bypass : option bool) :
  storage_throws w = Some message →
  let w1 := after_call (EvFindOne (ByUsername username_) false) w in
  (∀ w0 failure w2,
     findByUsername username_ false w0 = (Failed failure, w2) →
     exists_ username_ w0 = (false, w2)) ∧
  findByUsername username_ false w = (Fail message, w1) ∧
  exists_ username_ w = (false, w1) ∧
  ∃ user w',
    id user = None ∧ username user = username_ ∧
    snd (create username_ password roles_ bypass w) = w' ∧
    trace w' = trace w ++ [EvFindOne (ByUsername username_) false;
                           EvBcryptHash password; EvSave user] ∧
    fst (create username_ password roles_ bypass w) =
      match storage_throws w1 with
      | Some message' => Fail message'
      | None =>
          Success (mkUser (Some (fresh (dom (rows w)))) username_
                     (hashedPassword user) (roles user))
      end ∧
    (storage_throws w1 = None →
     rows w' !! fresh (dom (rows w)) =
       Some (mkUser (Some (fresh (dom (rows w)))) username_
               (hashedPassword user) (roles user))).
Proof.
  intros Hthrows w1. split.
  { intros w0 failure w2 Hfail. unfold exists_, bind. by rewrite Hfail. }
  split. { rewrite findByUsername_run. by rewrite Hthrows. }
  assert (Hfree : exists_ username_ w = (false, w1)).
  { rewrite exists_run. by rewrite Hthrows. }
  split; [done|].
  destruct (create_run username_ password roles_ bypass w Hfree)
    as (user & Hid & Hname & _ & Hcreate).
  exists user. eexists. split; [done|]. split; [done|]. split; [reflexivity|].
  rewrite Hcreate, repository_save_run.
  change (storage_throws (mkWorld (rows w) (tail (faults w)) _))
    with (storage_throws w1).
  simpl. unfold saved_key. rewrite Hid.
  destruct (storage_throws w1) as [message'|]; simpl.
  - split; [by rewrite <- (assoc_L (++))|]. by split.
  - split; [by rewrite <- (assoc_L (++))|]. rewrite Hname. split; [done|].
    intros _. rewrite lookup_insert_eq.
    rewrite (not_elem_of_dom_1 (rows w) _ (is_fresh _)). simpl.
    by rewrite Hname.
Qed.

(** What a successful [create] returned and stored. *)
Lemma create_success_inv (w w' : World) (username_ password : string)
  (roles_ : option (list string)) (bypass : option bool)
  (user : EUserBackend) :
  create username_ password roles_ bypass w = (Success user, w') →
  id user = Some (fresh (dom (rows w))) ∧
  username user = username_ ∧
  roles user =
    (if default false bypass then makeUnique (default [] roles_)
     else makeUnique (DefaultRolesList ++
                      filterAddedRoles (default [] roles_))) ∧
  rows w' = <[fresh (dom (rows w)) := user]> (rows w).
Proof.
  intros Hcreate.
  pose proof (exists_run username_ w) as Hexists.
  destruct (match storage_throws w with Some _ => _ | None => _ end).
  { unfold create, bind in Hcreate. by rewrite Hexists in Hcreate. }
  destruct (create_run username_ password roles_ bypass w Hexists)
    as (entity & Hid & Hname & Hroles & Hrun).
  rewrite Hrun, repository_save_run in Hcreate.
  destruct (storage_throws _); simpl in Hcreate; [done|].
  injection Hcreate as <- <-. simpl. unfold saved_key. rewrite Hid.
  split; [done|]. split; [done|]. split; [done|].
  by rewrite (not_elem_of_dom_1 (rows w) _ (is_fresh _)).
Qed.

(** C8. An account that [create] makes without the bypass holds exactly
    the default roles together with the requested roles that are not
    soulbound, each once; that is the role list returned and the one
    stored. *)
Theorem create_roles (w w' : World) (username_ password : string)
  (roles_ : option (list string)) (bypass : option bool)
  (user : EUserBackend) :
  default false bypass = false →
  create username_ password roles_ bypass w = (Success user, w') →
  NoDup (roles user) ∧
  (∀ role, role ∈ roles user ↔
           role ∈ DefaultRolesList ∨
           (role ∈ default [] roles_ ∧ role ∉ SoulBoundRolesList)) ∧
  ∃ key, id user = Some key ∧ rows w !! key = None ∧
         rows w' !! key = Some user.
Proof.
  intros Hbypass Hcreate.
  destruct (create_success_inv _ _ _ _ _ _ _ Hcreate)
    as (Hid & _ & Hroles & Hrows).
  rewrite Hbypass in Hroles. rewrite Hroles, Hrows.
  split; [apply NoDup_makeUnique|]. split.
  - intros role.
    by rewrite elem_of_makeUnique, elem_of_app, elem_of_filterAddedRoles.
  - exists (fresh (dom (rows w))). split; [done|].
    split; [apply not_elem_of_dom, is_fresh|]. by rewrite lookup_insert_eq.
Qed.

End Creation.

(** ** Role updates *)

Section RoleUpdates.
Context {constants : Constants} {collaborators : Collaborators}.
Import UsersService.

(** The entity [setRoles] hands to [save] for an account that is not
    immutable. *)
Lemma setRoles_run (uuid : string) (roles_ : list string) (w : World) :
  let w1 := after_call (EvFindOne (ById uuid) false) w in
  setRoles uuid roles_ w =
  match storage_throws w with
  | Some message => (Fail message, w1)
  | None =>
      match rows w !! uuid with
      | None => (Fail "User not found", w1)
      | Some row =>
          if includes ImmutableUsersList (username row) then
            (Success (public_view row),
             mkWorld (rows w) (tail (faults w))
               (trace w ++
                [EvFindOne (ById uuid) false;
                 EvLog LogVerbose
                   "User tried to modify system user, failed silently"]))
          else
            let entity :=
              mkUser (id row) (username row) None
                (makeUnique
                   (filter (λ role, includes SoulBoundRolesList role)
                      (roles row) ++ filterAddedRoles roles_)) in
            let (saved, w') := repository_save entity w1 in
            (match saved with
             | Returned saved => Success saved
             | Threw e => Fail e
             end, w')
      end
  end.
Proof.
  intros w1. unfold setRoles, bind at 1. rewrite findOne_run. fold w1.
  destruct (storage_throws w) as [message|]; [done|].
  destruct (rows w !! uuid) as [row|]; [|done]. simpl.
  destruct (includes ImmutableUsersList (username row)).
  - unfold bind, logger, emit, ret, w1, after_call. simpl.
    by rewrite <- (assoc_L (++)).
  - unfold bind, ret. by destruct (repository_save _ w1) as [[saved|e] w'].
Qed.

Lemma elem_of_rolesToKeep (held : list string) (role : string) :
  role ∈ filter (λ role, includes SoulBoundRolesList role) held ↔
  role ∈ held ∧ role ∈ SoulBoundRolesList.
Proof.
  rewrite list_elem_of_filter. unfold includes.
  rewrite bool_decide_spec. tauto.
Qed.

Lemma elem_of_newRoles (held requested : list string) (role : string) :
  role ∈ makeUnique
           (filter (λ role, includes SoulBoundRolesList role) held ++
            filterAddedRoles requested) ↔
  (role ∈ held ∧ role ∈ SoulBoundRolesList) ∨
  (role ∈ requested ∧ role ∉ SoulBoundRolesList).
Proof.
  by rewrite elem_of_makeUnique, elem_of_app, elem_of_rolesToKeep,
    elem_of_filterAddedRoles.
Qed.

(** C6. For an account with an immutable username [setRoles] makes no write
    and leaves the table as it is, whatever roles are requested; when the
    storage layer answers the lookup it returns, as a success, the very
    record the lookup gave. *)
Theorem setRoles_immutable (w : World) (uuid : string) (roles_ : list string)
  (row : EUserBackend) :
  rows w !! uuid = Some row →
  username row ∈ ImmutableUsersList →
  ∃ result w' events,
    setRoles uuid roles_ w = (result, w') ∧
    rows w' = rows w ∧
    rows w' !! uuid = Some row ∧
    trace w' = trace w ++ events ∧
    Forall (λ e, is_write e = false) events ∧
    (storage_throws w = None →
     result = Success (public_view row) ∧
     result = fst (findOne uuid w) ∧
     roles (public_view row) = roles row).
Proof.
  intros Hrow Himmutable%includes_spec.
  pose proof (setRoles_run uuid roles_ w) as Hrun. simpl in Hrun.
  rewrite Hrow, Himmutable in Hrun.
  destruct (storage_throws w) as [message|] eqn:Hcalm.
  - eexists _, _, [_]. split; [exact Hrun|]. simpl.
    split; [done|]. split; [done|]. split; [done|].
    split; [by repeat constructor|]. done.
  - eexists _, _, [_; _]. split; [exact Hrun|]. simpl.
    split; [done|]. split; [done|]. split; [done|].
    split; [by repeat constructor|]. intros _.
    rewrite findOne_run, Hcalm, Hrow. done.
Qed.

(** C3, as the code has it. A successful [setRoles] keeps every soulbound
    role the account holds and brings in no soulbound role it did not hold.
    For an account whose username is not immutable the resulting roles are
    the held soulbound roles together with the requested roles that are not
    soulbound, each once, and that is what is stored; for an immutable
    username the roles stay as they were. *)
Theorem setRoles_soulbound (w w' : World) (uuid : string)
  (roles_ : list string) (user : EUserBackend) :
  setRoles uuid roles_ w = (Success user, w') →
  ∃ row,
    rows w !! uuid = Some row ∧
    (∀ role, role ∈ roles row → role ∈ SoulBoundRolesList →
             role ∈ roles user) ∧
    (∀ role, role ∈ roles user → role ∈ SoulBoundRolesList →
             role ∈ roles row) ∧
    (username row ∉ ImmutableUsersList →
     NoDup (roles user) ∧
     (∀ role, role ∈ roles user ↔
              (role ∈ roles row ∧ role ∈ SoulBoundRolesList) ∨
              (role ∈ roles_ ∧ role ∉ SoulBoundRolesList)) ∧
     ∃ key stored, id user = Some key ∧ rows w' !! key = Some stored ∧
                   roles stored = roles user) ∧
    (username row ∈ ImmutableUsersList →
     roles user = roles row ∧ rows w' = rows w).
Proof.
  intros Hset. pose proof (setRoles_run uuid roles_ w) as Hrun.
  simpl in Hrun. rewrite Hset in Hrun.
  destruct (storage_throws w) as [message|]; [done|].
  destruct (rows w !! uuid) as [row|]; [|done].
  exists row. split; [done|].
  destruct (includes ImmutableUsersList (username row)) eqn:Himmutable.
  - injection Hrun as -> ->. simpl.
    apply includes_spec in Himmutable.
    split; [done|]. split; [done|]. split; [done|]. done.
  - apply includes_false in Himmutable.
    rewrite repository_save_run in Hrun.
    destruct (storage_throws _); simpl in Hrun; [done|].
    injection Hrun as -> ->. simpl.
    split. { intros role Hheld Hsoul. apply elem_of_newRoles. by left. }
    split. { intros role [[? ?]|[? ?]]%elem_of_newRoles; done. }
    split; [|done]. intros _. split; [apply NoDup_makeUnique|].
    split; [intros role; apply elem_of_newRoles|].
    eexists _, _. split; [done|]. rewrite lookup_insert_eq.
    split; [done|]. unfold merge_row.
    by destruct (rows w !! _).
Qed.

End RoleUpdates.

(** ** Deletion *)

Section Deletion.
Context {constants : Constants} {collaborators : Collaborators}.
Import UsersService.

(** C7. Deleting an account with an undeletable username fails; the only
    repository call is the lookup, so the table is untouched.  When the
    storage layer answers the lookup the failure is "Cannot delete system
    user", and afterwards the account is still found by its id and by its
    username. *)
Theorem delete_undeletable (w : World) (uuid : string) (row : EUserBackend) :
  rows w !! uuid = Some row →
  username row ∈ UndeletableUsersList →
  ∃ failure w',
    delete uuid w = (Failed failure, w') ∧
    rows w' = rows w ∧
    rows w' !! uuid = Some row ∧
    trace w' = trace w ++ [EvFindOne (ById uuid) false] ∧
    Forall (λ e, is_write e = false) [EvFindOne (ById uuid) false] ∧
    (storage_throws w = None →
     getReason failure = "Cannot delete system user") ∧
    (storage_throws w' = None →
     fst (findOne uuid w') = Success (public_view row) ∧
     ∀ getPrivate, ∃ found,
       fst (findByUsername (username row) getPrivate w') = Success found ∧
       username found = username row).
Proof.
  intros Hrow Hprotected%includes_spec.
  assert (Hafter : ∀ w1 : World,
            rows w1 = rows w → storage_throws w1 = None →
            fst (findOne uuid w1) = Success (public_view row) ∧
            ∀ getPrivate, ∃ found,
              fst (findByUsername (username row) getPrivate w1) =
                Success found ∧
              username found = username row).
  { intros w1 Hrows Hcalm. rewrite findOne_run, Hcalm, Hrows, Hrow.
    split; [done|]. intros getPrivate.
    rewrite findByUsername_run, Hcalm, Hrows.
    destruct (select_by_username_stored (rows w) uuid row Hrow)
      as [found Hfound].
    rewrite Hfound. simpl.
    apply select_by_username_Some in Hfound as [Hname _].
    eexists. split; [done|]. by destruct getPrivate. }
  unfold delete, bind. rewrite findOne_run.
  destruct (storage_throws w) as [message|] eqn:Hcalm.
  - eexists _, _. split; [done|]. simpl.
    split; [done|]. split; [done|]. split; [done|].
    split; [by repeat constructor|]. split; [done|]. by apply Hafter.
  - rewrite Hrow. simpl. rewrite Hprotected.
    eexists _, _. split; [done|]. simpl.
    split; [done|]. split; [done|]. split; [done|].
    split; [by repeat constructor|]. split; [done|]. by apply Hafter.
Qed.

End Deletion.

(** ** Authentication *)

Section Authentication.
Context {constants : Constants} {collaborators : Collaborators}.
Import UsersService.

Lemma authenticate_run (username_ password : string) (w : World) :
  let w1 := after_call (EvFindOne (ByUsername username_) true) w in
  authenticate username_ password w =
  match storage_throws w with
  | Some message => (Fail message, w1)
  | None =>
      match select_row (ByUsername username_) (rows w) with
      | None => (Fail "User not found", w1)
      | Some user =>
          if includes LockedLoginUsersList (username user) then
            (Fail "Wrong username", w1)
          else
            let hash := default "" (hashedPassword user) in
            let w2 := mkWorld (rows w) (tail (faults w))
                        (trace w ++ [EvFindOne (ByUsername username_) true;
                                     EvBcryptCompare password hash]) in
            if bcrypt_compare password hash
            then findOne (default "" (id user)) w2
            else (Fail "Wrong password", w2)
      end
  end.
Proof.
  intros w1. unfold authenticate, bind at 1.
  rewrite findByUsername_run. fold w1.
  destruct (storage_throws w) as [message|]; [done|].
  destruct (select_row _ _) as [user|]; [|done]. simpl.
  destruct (includes LockedLoginUsersList (username user)); [done|].
  unfold bind, emit, ret, w1, after_call. simpl.
  rewrite <- (assoc_L (++)). simpl.
  by destruct (bcrypt_compare _ _).
Qed.


End Authentication.

(** ** Accounts under sequences of requests *)

Section Invariants.
Context {constants : Constants} {collaborators : Collaborators}.
Import UsersService.

Lemma create_table (username_ password : string)
  (roles_ : option (list string)) (bypass : option bool) (w : World) :
  rows (snd (create username_ password roles_ bypass w)) = rows w ∨
  ∃ stored,
    id stored = Some (fresh (dom (rows w))) ∧
    rows (snd (create username_ password roles_ bypass w)) =
      <[fresh (dom (rows w)) := stored]> (rows w).
Proof.
  pose proof (exists_run username_ w) as Hexists.
  destruct (match storage_throws w with Some _ => _ | None => _ end).
  { left. unfold create, bind. by rewrite Hexists. }
  destruct (create_run username_ password roles_ bypass w Hexists)
    as (entity & Hid & _ & _ & ->).
  rewrite repository_save_run. destruct (storage_throws _); [by left|].
  right. simpl. unfold saved_key. rewrite Hid. eexists. split; [|done].
  unfold merge_row. by destruct (rows w !! _).
Qed.

Lemma setRoles_table (uuid : string) (roles_ : list string) (w : World) :
  well_keyed (rows w) →
  rows (snd (setRoles uuid roles_ w)) = rows w ∨
  ∃ row,
    rows w !! uuid = Some row ∧
    rows (snd (setRoles uuid roles_ w)) =
      <[uuid := mkUser (Some uuid) (username row) (hashedPassword row)
                  (makeUnique
                     (filter (λ role, includes SoulBoundRolesList role)
                        (roles row) ++ filterAddedRoles roles_))]> (rows w).
Proof.
  intros Hkeys. pose proof (setRoles_run uuid roles_ w) as Hrun.
  simpl in Hrun. rewrite Hrun.
  destruct (storage_throws w); [by left|].
  destruct (rows w !! uuid) as [row|] eqn:Hrow; [|by left].
  destruct (includes ImmutableUsersList (username row)); [by left|].
  rewrite repository_save_run. destruct (storage_throws _); [by left|].
  right. exists row. split; [done|]. simpl. unfold saved_key. simpl.
  rewrite (Hkeys uuid row Hrow). by rewrite Hrow.
Qed.

Lemma settled_newRoles (held requested : list string) :
  (∀ role, role ∈ DefaultRolesList → role ∈ SoulBoundRolesList →
           role ∈ held) →
  ∀ role, role ∈ DefaultRolesList → role ∈ SoulBoundRolesList →
          role ∈ makeUnique
                   (filter (λ role, includes SoulBoundRolesList role) held ++
                    filterAddedRoles requested).
Proof.
  intros Hheld role Hdefault Hsoul. apply elem_of_newRoles. left. auto.
Qed.

Lemma serve_keeps (request : Request) (w : World) (key : string)
  (row : EUserBackend) :
  well_keyed (rows w) →
  rows w !! key = Some row →
  settled row →
  well_keyed (rows (serve request w)) ∧
  ∃ row', rows (serve request w) !! key = Some row' ∧
          username row' = username row ∧ settled row'.
Proof.
  intros Hkeys Hrow Hsettled.
  destruct request as [username_ password roles_ bypass|uuid roles_]; simpl.
  - destruct (create_table username_ password roles_ bypass w)
      as [->|(stored & Hid & ->)]; [by eauto|].
    assert (Hfresh : rows w !! fresh (dom (rows w)) = None)
      by apply not_elem_of_dom, is_fresh.
    split.
    + by apply map_Forall_insert_2.
    + exists row. rewrite lookup_insert_ne; [done|]. congruence.
  - destruct (setRoles_table uuid roles_ w Hkeys)
      as [->|(held & Hheld & ->)]; [by eauto|].
    split.
    + by apply map_Forall_insert_2.
    + destruct (decide (uuid = key)) as [->|Hother].
      * rewrite lookup_insert_eq. eexists. split; [done|].
        assert (held = row) as -> by congruence.
        split; [done|]. destruct Hsettled as [_ Hdefaults].
        split; [apply NoDup_makeUnique|]. simpl.
        by apply settled_newRoles.
      * exists row. by rewrite lookup_insert_ne.
Qed.

Lemma well_keyed_empty : well_keyed ∅.
Proof. apply map_Forall_empty. Qed.

(** Every table reached from a well-keyed one is well-keyed. *)
Lemma serve_all_well_keyed (requests : list Request) (w : World) :
  well_keyed (rows w) → well_keyed (rows (serve_all requests w)).
Proof.
  revert w. induction requests as [|request requests IH]; intros w Hkeys;
    simpl; [done|].
  apply IH. destruct request as [username_ password roles_ bypass|uuid roles_];
    simpl.
  - destruct (create_table username_ password roles_ bypass w)
      as [->|(stored & Hid & ->)]; [done|]. by apply map_Forall_insert_2.
  - destruct (setRoles_table uuid roles_ w Hkeys)
      as [->|(held & Hheld & ->)]; [done|]. by apply map_Forall_insert_2.
Qed.

Lemma serve_all_keeps (requests : list Request) (w : World) (key : string)
  (row : EUserBackend) :
  well_keyed (rows w) →
  rows w !! key = Some row →
  settled row →
  ∃ row', rows (serve_all requests w) !! key = Some row' ∧
          username row' = username row ∧ settled row'.
Proof.
  revert w row. induction requests as [|request requests IH];
    intros w row Hkeys Hrow Hsettled; simpl.
  - by exists row.
  - destruct (serve_keeps request w key row Hkeys Hrow Hsettled)
      as (Hkeys' & row' & Hrow' & Hname' & Hsettled').
    destruct (IH (serve request w) row' Hkeys' Hrow' Hsettled')
      as (row'' & Hrow'' & Hname'' & Hsettled'').
    exists row''. split; [done|]. split; [congruence|done].
Qed.

(** C2, as the code has it. An account that [create] makes without the
    bypass holds every default role, each role once.  After any further
    sequence of create and set-roles requests the account is still stored
    under its id, still holds no role twice, and still holds every default
    role that is soulbound. *)
Theorem created_account_roles (w w' : World) (username_ password : string)
  (roles_ : option (list string)) (bypass : option bool)
  (user : EUserBackend) :
  well_keyed (rows w) →
  default false bypass = false →
  create username_ password roles_ bypass w = (Success user, w') →
  NoDup (roles user) ∧
  (∀ role, role ∈ DefaultRolesList → role ∈ roles user) ∧
  ∀ requests, ∃ key row,
    id user = Some key ∧
    rows (serve_all requests w') !! key = Some row ∧
    username row = username_ ∧
    NoDup (roles row) ∧
    (∀ role, role ∈ DefaultRolesList → role ∈ SoulBoundRolesList →
             role ∈ roles row).
Proof.
  intros Hkeys Hbypass Hcreate.
  destruct (create_success_inv _ _ _ _ _ _ _ Hcreate)
    as (Hid & Hname & Hroles & Hrows).
  rewrite Hbypass in Hroles.
  assert (Hdefaults : ∀ role, role ∈ DefaultRolesList → role ∈ roles user).
  { intros role Hdefault.
    rewrite Hroles, elem_of_makeUnique, elem_of_app. by left. }
  assert (Hnodup : NoDup (roles user)).
  { rewrite Hroles. apply NoDup_makeUnique. }
  split; [done|]. split; [done|]. intros requests.
  assert (Hkeys' : well_keyed (rows w')).
  { rewrite Hrows. by apply map_Forall_insert_2. }
  destruct (serve_all_keeps requests w' (fresh (dom (rows w))) user Hkeys')
    as (row & Hrow & Hrow_name & Hrow_nodup & Hrow_defaults).
  { rewrite Hrows. apply lookup_insert_eq. }
  { split; [done|]. auto. }
  exists (fresh (dom (rows w))), row. split; [done|]. split; [done|].
  split; [congruence|]. by split.
Qed.

End Invariants.

(** ** The authorization gate *)

Section Gate.
Context {constants : Constants} {collaborators : Collaborators}.
Import MainAuthGuard.

Lemma truthy_spec (value : option string) :
  truthy value = true ↔ ∃ text, value = Some text ∧ text ≠ "".
Proof.
  destruct value as [text|]; simpl.
  - rewrite negb_true_iff, String.eqb_neq. split; [by eauto|].
    by intros (? & [= <-] & ?).
  - split; [done|]. by intros (? & ? & ?).
Qed.

Lemma every_includes (required held : Permissions) :
  forallb (λ permission, UsersService.includes held permission) required
    = true ↔
  ∀ permission, permission ∈ required → permission ∈ held.
Proof.
  rewrite forallb_forall. split.
  - intros Hall permission Hin%list_elem_of_In.
    by apply includes_spec, Hall.
  - intros Hall permission Hin%list_elem_of_In.
    by apply includes_spec, Hall.
Qed.

(** The gate once the identity and the required permissions are resolved:
    what is left is the lookup of the held permissions and the decision. *)
Lemma canActivate_resolved (context : ExecutionContext) (w : World)
  (user : EUser) (required : Permissions) :
  passportCanActivate context = Returned true →
  requestUser context = ShapedUser user →
  truthy (id user) = true →
  extractPermissions context = Success required →
  canActivate context w =
  (let (userPermissions, w') :=
     UsersService.getPermissions (default "" (id user)) w in
   match userPermissions with
   | Failed failure =>
       (Threw InternalServerErrorException,
        mkWorld (rows w') (faults w')
          (trace w' ++
           [EvLog LogWarn
              ("Fetching user permissions failed: " +:+ getReason failure)]))
   | Success held =>
       (if forallb (λ permission, UsersService.includes held permission)
             required
        then Returned true
        else Threw (ForbiddenException "Permission denied"), w')
   end).
Proof.
  intros Hpassport Huser Hid Hrequired.
  unfold canActivate. rewrite Hpassport. simpl.
  unfold validateUser, bind at 1. rewrite Huser. simpl.
  rewrite Hid, Hrequired. simpl. unfold bind.
  destruct (UsersService.getPermissions _ w) as [[held|failure] w']; [|done].
  by destruct (forallb _ _).
Qed.

(** C4. When the identity, the required permissions and the held
    permissions are resolved, the gate allows the request exactly when every
    required permission is held; with nothing required it allows; a missing
    permission ends in [ForbiddenException('Permission denied')], which is
    not the internal error. *)
Theorem canActivate_decision (context : ExecutionContext) (w w' : World)
  (user : EUser) (uuid : string) (required held : Permissions) :
  passportCanActivate context = Returned true →
  requestUser context = ShapedUser user →
  id user = Some uuid →
  uuid ≠ "" →
  extractPermissions context = Success required →
  UsersService.getPermissions uuid w = (Success held, w') →
  (canActivate context w = (Returned true, w') ↔
   ∀ permission, permission ∈ required → permission ∈ held) ∧
  (required = [] → canActivate context w = (Returned true, w')) ∧
  ((∃ permission, permission ∈ required ∧ permission ∉ held) →
   canActivate context w =
     (Threw (ForbiddenException "Permission denied"), w')) ∧
  fst (canActivate context w) ≠ Threw InternalServerErrorException.
Proof.
  intros Hpassport Huser Hid Hnonempty Hrequired Hheld.
  assert (Htruthy : truthy (id user) = true)
    by (apply truthy_spec; eauto).
  rewrite (canActivate_resolved context w user required
             Hpassport Huser Htruthy Hrequired).
  rewrite Hid. simpl. rewrite Hheld.
  pose proof (every_includes required held) as Hevery.
  destruct (forallb (λ permission, UsersService.includes held permission)
              required).
  - split; [by split; [intros _; apply Hevery|]|].
    split; [done|]. split; [|done].
    intros (permission & Hin & Hmissing).
    destruct Hmissing. by apply Hevery.
  - split. { split; [done|]. intros Hall. apply Hevery in Hall. done. }
    split.
    { intros ->. assert (Habsurd : false = true); [|done].
      apply Hevery. intros permission Hin. inversion Hin. }
    by split.
Qed.

(** C5. The required permissions are those declared on the method when it
    has a declaration, and otherwise those declared on the class.  When
    neither has one the lookup fails and the gate throws: the request is
    never allowed, and the exception is the internal error unless passport
    itself threw one before.  When the steps before the lookup pass, the
    gate logs the failure of the lookup as an error and throws the internal
    error. *)
Theorem extractPermissions_priority (context : ExecutionContext) :
  (∀ declared, handlerPermissions context = JsPermissions declared →
               extractPermissions context = Success declared) ∧
  (∀ declared,
     handlerPermissions context = JsUndefined ∨
     handlerPermissions context = JsNull →
     classPermissions context = JsPermissions declared →
     extractPermissions context = Success declared) ∧
  (handlerPermissions context = JsUndefined →
   classPermissions context = JsUndefined →
   HasFailed (extractPermissions context) = true ∧
   ∀ w,
     fst (canActivate context w) ≠ Returned true ∧
     fst (canActivate context w) =
       match passportCanActivate context with
       | Threw e => Threw e
       | Returned _ => Threw InternalServerErrorException
       end ∧
     ∀ user,
       passportCanActivate context = Returned true →
       requestUser context = ShapedUser user →
       truthy (id user) = true →
       canActivate context w =
         (Threw InternalServerErrorException,
          mkWorld (rows w) (faults w)
            (trace w ++
             [EvLog LogError
                ("Fetching route permission failed: " +:+
                 (handlerName context +:+
                  " does not have any permissions defined, denying access"))]))).
Proof.
  unfold extractPermissions. split; [by intros declared ->|].
  split; [by intros declared [->| ->] ->|].
  intros Hhandler Hclass. split; [by rewrite Hhandler, Hclass|].
  intros w.
  assert (Hgate : fst (canActivate context w) =
            match passportCanActivate context with
            | Threw e => Threw e
            | Returned _ => Threw InternalServerErrorException
            end).
  { unfold canActivate, extractPermissions. rewrite Hhandler, Hclass.
    destruct (passportCanActivate context) as [[|]|e]; [|done|done].
    simpl. unfold validateUser, bind at 1.
    destruct (EUserSchema_safeParse _) as [user|]; [|done]. simpl.
    by destruct (truthy (id user)). }
  split; [|split; [done|]].
  { rewrite Hgate. by destruct (passportCanActivate context). }
  intros user Hpassport Huser Hid.
  unfold canActivate, extractPermissions.
  rewrite Hhandler, Hclass, Hpassport. simpl.
  unfold validateUser, bind at 1. rewrite Huser. simpl. by rewrite Hid.
Qed.

End Gate.

(** * Worked examples on the concrete installation *)

Section Examples.
Import UsersService MainAuthGuard.
Existing Instance demo_constants.
Existing Instance demo_collaborators.

Example makeUnique_keeps_first :
  makeUnique ["viewer"; "editor"; "viewer"; "guest"; "editor"] =
  ["viewer"; "editor"; "guest"].
Proof. vm_compute. reflexivity. Qed.

Example demo_table_well_keyed : well_keyed demo_table.
Proof. apply (bool_decide_unpack (well_keyed demo_table)). vm_compute. exact I. Qed.

Example create_alice :
  create "alice" "wonderland" (Some ["editor"]) None demo_world =
  (Success alice_row, alice_world).
Proof. vm_compute. reflexivity. Qed.



(** C2: a role update that requests no role takes the default role
    "viewer" from the account "alice", which was created without the
    bypass. *)
Lemma setRoles_drops_default_role :
  "viewer" ∈ DefaultRolesList ∧
  fst (create "alice" "wonderland" None None demo_world) =
    Success (mkUser (Some "0") "alice" (Some "$2b$wonderland") ["viewer"]) ∧
  rows (serve_all [Create "alice" "wonderland" None None; SetRoles "0" []]
          demo_world) !! "0" =
    Some (mkUser (Some "0") "alice" (Some "$2b$wonderland") []) ∧
  ¬ (∀ role, role ∈ DefaultRolesList →
             role ∈ roles (mkUser (Some "0") "alice"
                             (Some "$2b$wonderland") [])).
Proof.
  split. { apply (bool_decide_unpack ("viewer" ∈ DefaultRolesList)).
           vm_compute. exact I. }
  split; [vm_compute; reflexivity|].
  split; [vm_compute; reflexivity|].
  intros Hall. specialize (Hall "viewer"). simpl in Hall.
  assert (Hin : "viewer" ∈ ([] : list string)); [|inversion Hin].
  apply Hall. apply list_elem_of_here.
Qed.

Lemma created_account_roles_alice :
  NoDup (roles alice_row) ∧
  (∀ role, role ∈ DefaultRolesList → role ∈ roles alice_row) ∧
  ∀ requests, ∃ key row,
    id alice_row = Some key ∧
    rows (serve_all requests alice_world) !! key = Some row ∧
    username row = "alice" ∧
    NoDup (roles row) ∧
    (∀ role, role ∈ DefaultRolesList → role ∈ SoulBoundRolesList →
             role ∈ roles row).
Proof.
  apply (created_account_roles demo_world alice_world "alice" "wonderland"
           (Some ["editor"]) None alice_row).
  - apply (bool_decide_unpack (well_keyed (rows demo_world))).
    vm_compute. exact I.
  - reflexivity.
  - vm_compute. reflexivity.
Defined.

(** C3: the account "admin" is immutable; a successful [setRoles] that
    requests "editor" returns its roles as they were, not the requested
    role. *)
Lemma setRoles_immutable_not_requested :
  ∃ user w',
    setRoles "1" ["editor"] demo_world = (Success user, w') ∧
    rows demo_world !! "1" = Some admin_row ∧
    roles user = ["admin"; "viewer"] ∧
    ¬ (∀ role, role ∈ roles user ↔
               (role ∈ roles admin_row ∧ role ∈ SoulBoundRolesList) ∨
               (role ∈ ["editor"] ∧ role ∉ SoulBoundRolesList)).
Proof.
  eexists (public_view admin_row), _.
  split; [vm_compute; reflexivity|].
  split; [reflexivity|]. split; [reflexivity|].
  intros Hunion. specialize (Hunion "editor"). simpl in Hunion.
  assert (Hin : "editor" ∈ ["admin"; "viewer"]).
  { apply Hunion. right. split; [apply list_elem_of_here|].
    intros Hsoul. apply (bool_decide_pack _) in Hsoul.
    vm_compute in Hsoul. exact Hsoul. }
  apply (bool_decide_pack _) in Hin. vm_compute in Hin. exact Hin.
Qed.

Lemma setRoles_soulbound_guest :
  ∃ row,
    rows demo_world !! "2" = Some row ∧
    (∀ role, role ∈ roles row → role ∈ SoulBoundRolesList →
             role ∈ roles guest_updated) ∧
    (∀ role, role ∈ roles guest_updated → role ∈ SoulBoundRolesList →
             role ∈ roles row) ∧
    (username row ∉ ImmutableUsersList →
     NoDup (roles guest_updated) ∧
     (∀ role, role ∈ roles guest_updated ↔
              (role ∈ roles row ∧ role ∈ SoulBoundRolesList) ∨
              (role ∈ ["editor"; "guest"; "editor"] ∧
               role ∉ SoulBoundRolesList)) ∧
     ∃ key stored,
       id guest_updated = Some key ∧
       rows guest_updated_world !! key = Some stored ∧
       roles stored = roles guest_updated) ∧
    (username row ∈ ImmutableUsersList →
     roles guest_updated = roles row ∧
     rows guest_updated_world = rows demo_world).
Proof.
  apply (setRoles_soulbound demo_world guest_updated_world "2"
           ["editor"; "guest"; "editor"] guest_updated).
  vm_compute. reflexivity.
Defined.

Lemma canActivate_decision_admin_upload :
  canActivate upload_context demo_world =
    (Returned true, after_call (EvFindOne (ById "1") false) demo_world).
Proof.
  assert (Hid : "1" ≠ "") by discriminate.
  assert (Hheld : getPermissions "1" demo_world =
            (Success ["image-view"; "image-upload"; "user-manage"],
             after_call (EvFindOne (ById "1") false) demo_world))
    by (vm_compute; reflexivity).
  destruct (canActivate_decision upload_context demo_world
              (after_call (EvFindOne (ById "1") false) demo_world)
              (public_view admin_row) "1" ["image-upload"]
              ["image-view"; "image-upload"; "user-manage"]
              eq_refl eq_refl eq_refl Hid eq_refl Hheld) as [Hallowed _].
  apply Hallowed. intros permission Hin.
  apply list_elem_of_singleton in Hin as ->.
  apply (bool_decide_unpack _). vm_compute. exact I.
Defined.

(** "bob" holds the role "viewer", which does not grant [image-upload]. *)
Example canActivate_bob_upload_denied :
  fst (canActivate
         (mkContext "uploadImage" (JsPermissions ["image-upload"])
            (JsPermissions ["image-view"]) (ShapedUser (public_view bob_row))
            (Returned true))
         demo_world) =
  Threw (ForbiddenException "Permission denied").
Proof. vm_compute. reflexivity. Qed.

Lemma extractPermissions_priority_routes :
  extractPermissions upload_context = Success ["image-upload"] ∧
  extractPermissions meta_context = Success ["image-view"] ∧
  HasFailed (extractPermissions undeclared_context) = true ∧
  fst (canActivate undeclared_context demo_world) =
    Threw InternalServerErrorException.
Proof.
  split; [|split].
  - apply (proj1 (extractPermissions_priority upload_context)). reflexivity.
  - apply (proj1 (proj2 (extractPermissions_priority meta_context)));
      [left|]; reflexivity.
  - destruct (proj2 (proj2 (extractPermissions_priority undeclared_context))
                eq_refl eq_refl) as [Hfailed Hgate].
    split; [exact Hfailed|].
    destruct (Hgate demo_world) as (_ & Houtcome & _). exact Houtcome.
Defined.

Lemma setRoles_immutable_admin :
  ∃ result w' events,
    setRoles "1" ["editor"] demo_world = (result, w') ∧
    rows w' = rows demo_world ∧
    rows w' !! "1" = Some admin_row ∧
    trace w' = trace demo_world ++ events ∧
    Forall (λ e, is_write e = false) events ∧
    (storage_throws demo_world = None →
     result = Success (public_view admin_row) ∧
     result = fst (findOne "1" demo_world) ∧
     roles (public_view admin_row) = roles admin_row).
Proof.
  apply (setRoles_immutable demo_world "1" ["editor"] admin_row).
  - reflexivity.
  - apply (bool_decide_unpack ("admin" ∈ ImmutableUsersList)).
    vm_compute. exact I.
Defined.

Lemma delete_undeletable_admin :
  ∃ failure w',
    delete "1" demo_world = (Failed failure, w') ∧
    rows w' = rows demo_world ∧
    rows w' !! "1" = Some admin_row ∧
    trace w' = trace demo_world ++ [EvFindOne (ById "1") false] ∧
    Forall (λ e, is_write e = false) [EvFindOne (ById "1") false] ∧
    (storage_throws demo_world = None →
     getReason failure = "Cannot delete system user") ∧
    (storage_throws w' = None →
     fst (findOne "1" w') = Success (public_view admin_row) ∧
     ∀ getPrivate, ∃ found,
       fst (findByUsername (username admin_row) getPrivate w') =
         Success found ∧
       username found = username admin_row).
Proof.
  apply (delete_undeletable demo_world "1" admin_row).
  - reflexivity.
  - apply (bool_decide_unpack ("admin" ∈ UndeletableUsersList)).
    vm_compute. exact I.
Defined.

Lemma create_roles_alice :
  NoDup (roles alice_row) ∧
  (∀ role, role ∈ roles alice_row ↔
           role ∈ DefaultRolesList ∨
           (role ∈ default [] (Some ["editor"]) ∧
            role ∉ SoulBoundRolesList)) ∧
  ∃ key, id alice_row = Some key ∧ rows demo_world !! key = None ∧
         rows alice_world !! key = Some alice_row.
Proof.
  apply (create_roles demo_world alice_world "alice" "wonderland"
           (Some ["editor"]) None alice_row).
  - reflexivity.
  - vm_compute. reflexivity.
Defined.

(** The scenario of the specification: the role set is {viewer, editor}. *)
Example create_alice_role_set :
  (list_to_set (roles alice_row) : gset string) = {["viewer"; "editor"]}.
Proof. vm_compute. reflexivity. Qed.

Lemma create_existing_username_bob :
  ∃ w', create "bob" "hunter3" (Some ["editor"]) None demo_world =
          (Fail "User already exists", w') ∧
        rows w' = rows demo_world ∧
        trace w' = trace demo_world ++ [EvFindOne (ByUsername "bob") false] ∧
        Forall (λ e, is_write e = false)
          [EvFindOne (ByUsername "bob") false].
Proof.
  apply (create_existing_username demo_world "bob" "hunter3"
           (Some ["editor"]) None "3" bob_row); reflexivity.
Defined.

(** C9: the account "bob" is stored, the storage layer throws during the
    lookup of the username; [create] does not fail with "User already
    exists" but saves a second account named "bob". *)
Lemma create_existing_username_lookup_throws :
  rows flaky_world !! "3" = Some bob_row ∧
  username bob_row = "bob" ∧
  storage_throws flaky_world = Some "Connection terminated" ∧
  ∃ stored w',
    create "bob" "hunter3" (Some ["editor"]) None flaky_world =
      (Success stored, w') ∧
    Success stored ≠ Fail "User already exists" ∧
    username stored = "bob" ∧
    rows flaky_world !! "0" = None ∧
    rows w' !! "0" = Some stored ∧
    rows w' ≠ rows flaky_world ∧
    trace w' =
      trace flaky_world ++
      [EvFindOne (ByUsername "bob") false; EvBcryptHash "hunter3";
       EvSave (mkUser None "bob" (Some "$2b$hunter3") ["viewer"; "editor"])] ∧
    is_write
      (EvSave (mkUser None "bob" (Some "$2b$hunter3") ["viewer"; "editor"]))
      = true.
Proof.
  split; [reflexivity|]. split; [reflexivity|]. split; [reflexivity|].
  exists (mkUser (Some "0") "bob" (Some "$2b$hunter3") ["viewer"; "editor"]).
  eexists. split; [vm_compute; reflexivity|].
  split; [discriminate|]. split; [reflexivity|].
  split; [vm_compute; reflexivity|]. split; [vm_compute; reflexivity|].
  split; [|split; reflexivity].
  intros Hsame. apply (f_equal (λ table, table !! "0")) in Hsame.
  vm_compute in Hsame. discriminate.
Qed.

Lemma exists_swallows_lookup_failure_bob :
  exists_ "bob" flaky_world =
    (false, after_call (EvFindOne (ByUsername "bob") false) flaky_world) ∧
  ∃ stored,
    username stored = "bob" ∧
    fst (create "bob" "hunter3" None None flaky_world) = Success stored ∧
    rows flaky_world !! "3" = Some bob_row ∧
    rows (snd (create "bob" "hunter3" None None flaky_world)) !! "0" =
      Some stored.
Proof.
  destruct (exists_swallows_lookup_failure flaky_world "bob" "hunter3"
              "Connection terminated" None None eq_refl)
    as (_ & _ & Hexists & user & w' & _ & Hname & Hworld & _ & Hresult &
        Hstored).
  split; [exact Hexists|].
  exists (mkUser (Some "0") "bob" (hashedPassword user) (roles user)).
  split; [reflexivity|]. split; [exact Hresult|]. split; [reflexivity|].
  rewrite Hworld. apply Hstored. reflexivity.
Defined.

End Examples.

(** * Further properties of the account store *)

Lemma repository_remove_run (entity : EUserBackend) (w : World) :
  repository_remove entity w =
  match storage_throws w with
  | Some message => (Threw message, after_call (EvRemove entity) w)
  | None =>
      (Returned entity,
       mkWorld (match id entity with
                | Some uuid => base.delete uuid (rows w)
                | None => rows w
                end)
         (tail (faults w)) (trace w ++ [EvRemove entity]))
  end.
Proof.
  unfold repository_remove, bind, emit, next_outcome, ret, after_call,
    storage_throws. simpl.
  by destruct (faults w) as [|[message|] rest].
Qed.

Lemma select_by_username_unique (table : gmap string EUserBackend)
  (key : string) (row : EUserBackend) :
  usernames_unique table →
  table !! key = Some row →
  select_row (ByUsername (username row)) table = Some row.
Proof.
  intros Hunique Hrow.
  destruct (select_by_username_stored table key row Hrow) as [found Hfound].
  rewrite Hfound.
  apply select_by_username_Some in Hfound as [Hname [key' Hkey']].
  rewrite (Hunique key' key found row Hkey' Hrow Hname) in Hkey'.
  congruence.
Qed.

Section CreationMore.
Context {constants : Constants} {collaborators : Collaborators}.
Import UsersService.

(** X1. When the storage layer answers the lookup, [exists] tells whether
    some account has the username. *)
Theorem exists_stored (w : World) (username_ : string) :
  storage_throws w = None →
  fst (exists_ username_ w) = true ↔
  ∃ key row, rows w !! key = Some row ∧ username row = username_.
Proof.
  intros Hcalm. rewrite exists_run, Hcalm. simpl.
  rewrite bool_decide_eq_true. split.
  - intros [found Hfound].
    apply select_by_username_Some in Hfound as [Hname [key Hkey]]. eauto.
  - intros (key & row & Hrow & <-). by eapply select_by_username_stored.
Qed.

(** X2. With the bypass [create] takes the requested roles as they are,
    each once: soulbound roles stay in and the default roles are not
    added. *)
Theorem create_bypass_roles (w w' : World) (username_ password : string)
  (roles_ : option (list string)) (user : EUserBackend) :
  create username_ password roles_ (Some true) w = (Success user, w') →
  roles user = makeUnique (default [] roles_) ∧
  NoDup (roles user) ∧
  (∀ role, role ∈ roles user ↔ role ∈ default [] roles_).
Proof.
  intros Hcreate.
  destruct (create_success_inv _ _ _ _ _ _ _ Hcreate) as (_ & _ & Hroles & _).
  simpl in Hroles. rewrite Hroles. split; [done|].
  split; [apply NoDup_makeUnique|]. intros role. apply elem_of_makeUnique.
Qed.

(** X3. [create] writes at most one row: when it fails the table is as it
    was, and when it succeeds the table is the old one plus the returned
    account under a key that was free; the accounts stored before are
    untouched. *)
Theorem create_adds_one_row (w : World) (username_ password : string)
  (roles_ : option (list string)) (bypass : option bool) :
  match create username_ password roles_ bypass w with
  | (Failed _, w') => rows w' = rows w
  | (Success user, w') =>
      ∃ key, id user = Some key ∧ rows w !! key = None ∧
             rows w' = <[key := user]> (rows w) ∧
             ∀ other row, rows w !! other = Some row →
                          rows w' !! other = Some row
  end.
Proof.
  destruct (create username_ password roles_ bypass w) as [[user|failure] w']
    eqn:Hcreate.
  - destruct (create_success_inv _ _ _ _ _ _ _ Hcreate)
      as (Hid & _ & _ & Hrows).
    assert (Hfresh : rows w !! fresh (dom (rows w)) = None)
      by apply not_elem_of_dom, is_fresh.
    exists (fresh (dom (rows w))). split; [done|]. split; [done|].
    split; [done|]. intros other row Hrow. rewrite Hrows.
    rewrite lookup_insert_ne; [done|]. congruence.
  - change w' with (snd (Failed (A := EUserBackend) failure, w')).
    rewrite <- Hcreate.
    pose proof (exists_run username_ w) as Hexists.
    destruct (match storage_throws w with Some _ => _ | None => _ end).
    { unfold create, bind. by rewrite Hexists. }
    destruct (create_run username_ password roles_ bypass w Hexists)
      as (entity & _ & _ & _ & Hrun).
    rewrite Hrun in Hcreate |- *. rewrite repository_save_run in Hcreate |- *.
    by destruct (storage_throws _).
Qed.

Lemma create_hash_inv (w w' : World) (username_ password : string)
  (roles_ : option (list string)) (bypass : option bool)
  (user : EUserBackend) :
  create username_ password roles_ bypass w = (Success user, w') →
  hashedPassword user =
    Some (bcrypt_hash password (fst (getBCryptStrength w))).
Proof.
  intros Hcreate.
  pose proof (exists_run username_ w) as Hexists.
  destruct (match storage_throws w with Some _ => _ | None => _ end).
  { unfold create, bind in Hcreate. by rewrite Hexists in Hcreate. }
  unfold create, bind at 1 in Hcreate. rewrite Hexists in Hcreate.
  unfold getBCryptStrength, bind, ret, emit in Hcreate. simpl in Hcreate.
  rewrite repository_save_run in Hcreate.
  destruct (storage_throws _); simpl in Hcreate; [done|].
  by injection Hcreate as <- <-.
Qed.

(** X4. The account [create] returns, and stores, carries the bcrypt hash
    of the password, computed with the configured strength, or with
    strength 12 when the preference cannot be read. *)
Theorem create_hashes_password (w w' : World) (username_ password : string)
  (roles_ : option (list string)) (bypass : option bool)
  (user : EUserBackend) :
  create username_ password roles_ bypass w = (Success user, w') →
  hashedPassword user =
    Some (bcrypt_hash password
            (match getNumberPreference_BCryptStrength with
             | Success strength => strength
             | Failed _ => 12%Z
             end)) ∧
  ∃ key, rows w' !! key = Some user.
Proof.
  intros Hcreate. split; [exact (create_hash_inv _ _ _ _ _ _ _ Hcreate)|].
  destruct (create_success_inv _ _ _ _ _ _ _ Hcreate) as (_ & _ & _ & Hrows).
  eexists. rewrite Hrows. apply lookup_insert_eq.
Qed.

End CreationMore.

Lemma answers_next (n : nat) (w : World) :
  answers (S n) w →
  storage_throws w = None ∧
  ∀ w', faults w' = tail (faults w) → answers n w'.
Proof.
  unfold answers, storage_throws. destruct (faults w) as [|outcome rest]; simpl.
  - intros _. split; [done|]. intros w' ->. by rewrite take_nil.
  - intros [-> Hrest]%Forall_cons. split; [done|]. by intros w' ->.
Qed.

Lemma answers_one (w : World) : answers 1 w → storage_throws w = None.
Proof. by intros [Hcalm _]%answers_next. Qed.

Lemma repository_find_run (take_ skip : Z) (w : World) :
  repository_find take_ skip w =
  (match storage_throws w with
   | Some message => Threw message
   | None =>
       Returned (take (Z.to_nat take_)
                   (drop (Z.to_nat skip)
                      (public_view <$> (snd <$> map_to_list (rows w)))))
   end,
   mkWorld (rows w) (tail (faults w)) (trace w)).
Proof.
  unfold repository_find, bind, next_outcome, ret.
  by destruct (storage_throws w).
Qed.

Lemma repository_update_array_remove_run (role : string) (w : World) :
  repository_update_array_remove role w =
  match storage_throws w with
  | Some message =>
      (Threw message, mkWorld (rows w) (tail (faults w)) (trace w))
  | None =>
      (Returned tt,
       mkWorld (array_remove role <$> rows w) (tail (faults w)) (trace w))
  end.
Proof.
  unfold repository_update_array_remove, bind, next_outcome, ret.
  by destruct (storage_throws w).
Qed.

Section AuthenticationMore.
Context {constants : Constants} {collaborators : Collaborators}.
Import UsersService.

(** X5. Round trip: after [create] has made an account for a username that
    was free and is not locked, [authenticate] with the same password
    returns that account (given that bcrypt accepts the password against
    its own hash and the storage layer answers the two lookups), and a
    password that bcrypt rejects fails with "Wrong password". *)
Theorem create_then_authenticate (w w' : World) (username_ password : string)
  (roles_ : option (list string)) (bypass : option bool) (user : EUserBackend) :
  (∀ key row, rows w !! key = Some row → username row ≠ username_) →
  create username_ password roles_ bypass w = (Success user, w') →
  username_ ∉ LockedLoginUsersList →
  bcrypt_compare password
    (bcrypt_hash password (fst (getBCryptStrength w))) = true →
  answers 2 w' →
  (∃ w'', authenticate username_ password w' =
            (Success (public_view user), w'') ∧
          username (public_view user) = username_ ∧
          rows w'' = rows w') ∧
  (∀ wrong,
     bcrypt_compare wrong
       (bcrypt_hash password (fst (getBCryptStrength w))) = false →
     fst (authenticate username_ wrong w') = Fail "Wrong password").
Proof.
  intros Hfree Hcreate Hunlocked Hmatch Hanswers.
  destruct (create_success_inv _ _ _ _ _ _ _ Hcreate)
    as (Hid & Hname & _ & Hrows).
  pose proof (create_hash_inv _ _ _ _ _ _ _ Hcreate) as Hhash.
  change (fst (getBCryptStrength w)) with
    (match getNumberPreference_BCryptStrength with
     | Success strength => strength
     | Failed _ => 12%Z
     end) in Hhash.
  assert (Hselect : select_row (ByUsername username_) (rows w') = Some user).
  { destruct (select_by_username_stored (rows w') (fresh (dom (rows w))) user)
      as [found Hfound].
    { rewrite Hrows. apply lookup_insert_eq. }
    rewrite Hname in Hfound. rewrite Hfound.
    apply select_by_username_Some in Hfound as [Hfound_name [key Hkey]].
    rewrite Hrows in Hkey.
    destruct (decide (fresh (dom (rows w)) = key)) as [<-|Hother].
    - rewrite lookup_insert_eq in Hkey. done.
    - rewrite lookup_insert_ne in Hkey; [|done].
      by destruct (Hfree key found Hkey). }
  apply answers_next in Hanswers as [Hcalm Hanswers].
  assert (Hcalm2 : ∀ events,
            storage_throws (mkWorld (rows w') (tail (faults w')) events) =
              None).
  { intros events. by apply answers_one, Hanswers. }
  pose proof (authenticate_run username_ password w') as Hrun.
  cbv zeta in Hrun. rewrite Hcalm, Hselect, Hname in Hrun.
  rewrite (proj2 (includes_false _ _) Hunlocked), Hhash in Hrun.
  simpl in Hrun. change (fst (getBCryptStrength w)) with
    (match getNumberPreference_BCryptStrength with
     | Success strength => strength
     | Failed _ => 12%Z
     end) in Hmatch.
  split.
  - rewrite Hmatch, Hid in Hrun. simpl in Hrun.
    rewrite findOne_run, Hcalm2 in Hrun. simpl in Hrun.
    rewrite Hrows, lookup_insert_eq in Hrun.
    eexists. split; [exact Hrun|]. split; [done|]. simpl. by rewrite Hrows.
  - intros wrong Hwrong.
    pose proof (authenticate_run username_ wrong w') as Hrun'.
    cbv zeta in Hrun'. rewrite Hcalm, Hselect, Hname in Hrun'.
    rewrite (proj2 (includes_false _ _) Hunlocked), Hhash in Hrun'.
    simpl in Hrun'.
    change (fst (getBCryptStrength w)) with
      (match getNumberPreference_BCryptStrength with
       | Success strength => strength
       | Failed _ => 12%Z
       end) in Hwrong.
    by rewrite Hwrong in Hrun'; rewrite Hrun'.
Qed.

(** X6. [authenticate] succeeds only for a stored account whose username is
    not locked and whose stored hash bcrypt accepts for the password; in a
    well-keyed table the record returned is that account, as a lookup by id
    gives it. *)
Theorem authenticate_success_sound (w w' : World) (username_ password : string)
  (user : EUserBackend) :
  authenticate username_ password w = (Success user, w') →
  ∃ row,
    select_row (ByUsername username_) (rows w) = Some row ∧
    username row = username_ ∧
    (username_ ∉ LockedLoginUsersList) ∧
    bcrypt_compare password (default "" (hashedPassword row)) = true ∧
    (well_keyed (rows w) → user = public_view row).
Proof.
  intros Hauth. pose proof (authenticate_run username_ password w) as Hrun.
  cbv zeta in Hrun. rewrite Hauth in Hrun.
  destruct (storage_throws w); [done|].
  destruct (select_row _ _) as [row|] eqn:Hselect; [|done].
  pose proof Hselect as [Hname [key Hkey]]%select_by_username_Some.
  exists row. split; [done|]. split; [done|].
  destruct (includes LockedLoginUsersList (username row)) eqn:Hlocked; [done|].
  apply includes_false in Hlocked. rewrite Hname in Hlocked.
  split; [done|].
  destruct (bcrypt_compare _ _); [|done]. split; [done|].
  rewrite findOne_run in Hrun.
  destruct (storage_throws _); [done|]. simpl in Hrun.
  destruct (rows w !! default "" (id row)) as [stored|] eqn:Hstored; [|done].
  injection Hrun as -> ->.
  intros Hkeys. rewrite (Hkeys key row Hkey) in Hstored. simpl in Hstored.
  congruence.
Qed.

(** X7. The queries never write: [authenticate], [getPermissions],
    [findMany] and [exists] leave the table as it is for every input and
    every behaviour of the storage layer, and call neither [save] nor
    [remove]. *)
Theorem queries_never_write (w : World) (username_ password uuid : string)
  (count page : Z) :
  (rows (snd (authenticate username_ password w)) = rows w ∧
   ∃ events, trace (snd (authenticate username_ password w)) =
               trace w ++ events ∧
             Forall (λ e, is_write e = false) events) ∧
  (rows (snd (getPermissions uuid w)) = rows w ∧
   trace (snd (getPermissions uuid w)) =
     trace w ++ [EvFindOne (ById uuid) false]) ∧
  (rows (snd (findMany count page w)) = rows w ∧
   trace (snd (findMany count page w)) = trace w) ∧
  (rows (snd (exists_ username_ w)) = rows w ∧
   trace (snd (exists_ username_ w)) =
     trace w ++ [EvFindOne (ByUsername username_) false]).
Proof.
  split; [|split; [|split]].
  - pose proof (authenticate_run username_ password w) as Hrun.
    cbv zeta in Hrun. rewrite Hrun.
    destruct (storage_throws w);
      [split; [done|]; exists [EvFindOne (ByUsername username_) true];
       split; [done|]; by repeat constructor|].
    destruct (select_row _ _) as [row|];
      [|split; [done|]; exists [EvFindOne (ByUsername username_) true];
        split; [done|]; by repeat constructor].
    destruct (includes _ _);
      [split; [done|]; exists [EvFindOne (ByUsername username_) true];
       split; [done|]; by repeat constructor|].
    destruct (bcrypt_compare _ _).
    + rewrite findOne_run. simpl. split; [done|].
      eexists [_; _; _]. rewrite <- (assoc_L (++)). simpl.
      split; [done|]. by repeat constructor.
    + simpl. split; [done|]. eexists [_; _].
      split; [done|]. by repeat constructor.
  - unfold getPermissions, bind. rewrite findOne_run.
    destruct (storage_throws w); [done|]. by destruct (rows w !! uuid).
  - unfold findMany. destruct (_ || _); [done|].
    destruct (count >? 100)%Z; [done|].
    unfold bind. rewrite repository_find_run.
    by destruct (storage_throws w).
  - by rewrite exists_run.
Qed.

End AuthenticationMore.

Section DeletionMore.
Context {constants : Constants} {collaborators : Collaborators}.
Import UsersService.

Lemma delete_run (uuid : string) (w : World) :
  let w1 := after_call (EvFindOne (ById uuid) false) w in
  delete uuid w =
  match storage_throws w with
  | Some message => (Fail message, w1)
  | None =>
      match rows w !! uuid with
      | None => (Fail "User not found", w1)
      | Some row =>
          if includes UndeletableUsersList (username row) then
            (Fail "Cannot delete system user", w1)
          else
            let (removed, w') := repository_remove (public_view row) w1 in
            (match removed with
             | Returned removed => Success removed
             | Threw e => Fail e
             end, w')
      end
  end.
Proof.
  intros w1. unfold delete, bind at 1. rewrite findOne_run. fold w1.
  destruct (storage_throws w) as [message|]; [done|].
  destruct (rows w !! uuid) as [row|]; [|done]. simpl.
  destruct (includes UndeletableUsersList (username row)); [done|].
  unfold bind, ret. by destruct (repository_remove _ w1) as [[removed|e] w'].
Qed.

Lemma updatePassword_run (uuid password : string) (w : World) :
  let w1 := after_call (EvFindOne (ById uuid) false) w in
  updatePassword uuid password w =
  match storage_throws w with
  | Some message => (Fail message, w1)
  | None =>
      match rows w !! uuid with
      | None => (Fail "User not found", w1)
      | Some row =>
          let entity :=
            mkUser (id row) (username row)
              (Some (bcrypt_hash password (fst (getBCryptStrength w))))
              (roles row) in
          let (saved, w') :=
            repository_save entity
              (mkWorld (rows w) (tail (faults w))
                 (trace w ++ [EvFindOne (ById uuid) false;
                              EvBcryptHash password])) in
          (match saved with
           | Returned saved => Success saved
           | Threw e => Fail e
           end, w')
      end
  end.
Proof.
  intros w1. unfold updatePassword, bind at 1. rewrite findOne_run. fold w1.
  destruct (storage_throws w) as [message|]; [done|].
  destruct (rows w !! uuid) as [row|]; [|done]. simpl.
  unfold getBCryptStrength, bind, ret, emit, w1, after_call. simpl.
  rewrite <- (assoc_L (++)). simpl.
  by destruct (repository_save _ _) as [[saved|e] w'].
Qed.

(** X8. Deleting a stored account whose username is not protected, with
    the storage layer answering, returns the account and takes exactly its
    row out of the table: the id is not found afterwards and every other
    account is as it was.  When [remove] throws instead, [delete] fails with
    that error and the table is unchanged. *)
Theorem delete_removes (w : World) (uuid : string) (row : EUserBackend) :
  rows w !! uuid = Some row →
  id row = Some uuid →
  username row ∉ UndeletableUsersList →
  storage_throws w = None →
  let w1 := after_call (EvFindOne (ById uuid) false) w in
  (storage_throws w1 = None →
   ∃ w', delete uuid w = (Success (public_view row), w') ∧
         rows w' = base.delete uuid (rows w) ∧
         rows w' !! uuid = None ∧
         (∀ other, other ≠ uuid → rows w' !! other = rows w !! other) ∧
         (storage_throws w' = None →
          fst (findOne uuid w') = Fail "User not found")) ∧
  (∀ message, storage_throws w1 = Some message →
   ∃ w', delete uuid w = (Fail message, w') ∧ rows w' = rows w).
Proof.
  intros Hrow Hid Hfree%includes_false Hcalm w1.
  pose proof (delete_run uuid w) as Hrun. cbv zeta in Hrun. fold w1 in Hrun.
  rewrite Hcalm, Hrow, Hfree, repository_remove_run in Hrun. split.
  - intros Hcalm1. rewrite Hcalm1 in Hrun. simpl in Hrun. rewrite Hid in Hrun.
    eexists. split; [exact Hrun|]. simpl. split; [done|].
    split; [apply lookup_delete_eq|].
    split; [by intros other Hother; apply lookup_delete_ne|].
    intros Hcalm'. rewrite findOne_run, Hcalm'. simpl.
    by rewrite lookup_delete_eq.
  - intros message Hthrows. rewrite Hthrows in Hrun. by eexists.
Qed.

(** X9. For an id that no account is stored under, [delete], [setRoles],
    [updatePassword] and [getPermissions] fail with "User not found" after
    the lookup alone; nothing is written. *)
Theorem unknown_id_not_found (w : World) (uuid password : string)
  (roles_ : list string) :
  rows w !! uuid = None →
  storage_throws w = None →
  let w1 := after_call (EvFindOne (ById uuid) false) w in
  delete uuid w = (Fail "User not found", w1) ∧
  setRoles uuid roles_ w = (Fail "User not found", w1) ∧
  updatePassword uuid password w = (Fail "User not found", w1) ∧
  getPermissions uuid w = (Fail "User not found", w1) ∧
  rows w1 = rows w.
Proof.
  intros Hnone Hcalm w1.
  pose proof (delete_run uuid w) as Hdelete.
  pose proof (setRoles_run uuid roles_ w) as Hset.
  pose proof (updatePassword_run uuid password w) as Hupdate.
  cbv zeta in Hdelete, Hset, Hupdate.
  rewrite Hcalm, Hnone in Hdelete, Hset, Hupdate.
  split; [done|]. split; [done|]. split; [done|]. split; [|done].
  unfold getPermissions, bind. by rewrite findOne_run, Hcalm, Hnone.
Qed.

Lemma updatePassword_answered (w : World) (uuid password : string)
  (row : EUserBackend) :
  rows w !! uuid = Some row →
  id row = Some uuid →
  answers 2 w →
  let updated :=
    mkUser (Some uuid) (username row)
      (Some (bcrypt_hash password (fst (getBCryptStrength w)))) (roles row) in
  updatePassword uuid password w =
    (Success updated,
     mkWorld (<[uuid := updated]> (rows w)) (tail (tail (faults w)))
       (trace w ++ [EvFindOne (ById uuid) false; EvBcryptHash password;
                    EvSave (mkUser (id row) (username row)
                              (hashedPassword updated) (roles row))])).
Proof.
  intros Hrow Hid [Hcalm Hanswers]%answers_next updated.
  pose proof (updatePassword_run uuid password w) as Hrun. cbv zeta in Hrun.
  assert (Hcalm2 : ∀ events,
            storage_throws (mkWorld (rows w) (tail (faults w)) events) =
              None).
  { intros events. by apply answers_one, Hanswers. }
  rewrite Hcalm, Hrow, repository_save_run, Hcalm2 in Hrun.
  cbv zeta in Hrun. unfold saved_key in Hrun. simpl in Hrun.
  rewrite Hid, Hrow in Hrun. simpl in Hrun.
  rewrite <- (assoc_L (++)) in Hrun. simpl in Hrun. by rewrite Hid.
Qed.

Lemma usernames_unique_insert (table : gmap string EUserBackend)
  (key : string) (row row' : EUserBackend) :
  usernames_unique table →
  table !! key = Some row →
  username row' = username row →
  usernames_unique (<[key := row']> table).
Proof.
  intros Hunique Hrow Hname key1 key2 row1 row2 Hrow1 Hrow2 Hsame.
  destruct (decide (key = key1)) as [<-|Hne1];
    destruct (decide (key = key2)) as [<-|Hne2]; [done| | |].
  - rewrite lookup_insert_eq in Hrow1. injection Hrow1 as <-.
    rewrite lookup_insert_ne in Hrow2; [|done].
    eapply Hunique; [done..|congruence].
  - rewrite lookup_insert_eq in Hrow2. injection Hrow2 as <-.
    rewrite lookup_insert_ne in Hrow1; [|done].
    eapply Hunique; [done..|congruence].
  - rewrite lookup_insert_ne in Hrow1, Hrow2; [|done..].
    by eapply Hunique.
Qed.

(** X10. [updatePassword] on a stored account, with the storage layer
    answering, replaces the stored hash by the bcrypt hash of the new
    password and nothing else: id, username and roles of the account stay,
    and so does every other account.  No protection list is consulted. *)
Theorem updatePassword_replaces_hash (w : World) (uuid password : string)
  (row : EUserBackend) :
  rows w !! uuid = Some row →
  id row = Some uuid →
  answers 2 w →
  let updated :=
    mkUser (Some uuid) (username row)
      (Some (bcrypt_hash password (fst (getBCryptStrength w)))) (roles row) in
  ∃ w', updatePassword uuid password w = (Success updated, w') ∧
        rows w' = <[uuid := updated]> (rows w) ∧
        rows w' !! uuid = Some updated ∧
        ∀ other, other ≠ uuid → rows w' !! other = rows w !! other.
Proof.
  intros Hrow Hid Hanswers updated.
  pose proof (updatePassword_answered w uuid password row Hrow Hid Hanswers)
    as Hrun. cbv zeta in Hrun.
  eexists. split; [exact Hrun|]. simpl. split; [done|].
  split; [apply lookup_insert_eq|].
  intros other Hother. by apply lookup_insert_ne.
Qed.

(** X11. Round trip: after [updatePassword] on an account whose username
    is unique and not locked, [authenticate] with the new password returns
    the account (given that bcrypt accepts the password against its own
    hash and the storage layer answers), and every password bcrypt rejects
    against the new hash fails with "Wrong password". *)
Theorem updatePassword_then_authenticate (w : World) (uuid password : string)
  (row : EUserBackend) :
  rows w !! uuid = Some row →
  id row = Some uuid →
  usernames_unique (rows w) →
  username row ∉ LockedLoginUsersList →
  bcrypt_compare password
    (bcrypt_hash password (fst (getBCryptStrength w))) = true →
  answers 4 w →
  let w' := snd (updatePassword uuid password w) in
  (∃ w'', authenticate (username row) password w' =
            (Success (mkUser (Some uuid) (username row) None (roles row)),
             w'')) ∧
  (∀ other,
     bcrypt_compare other
       (bcrypt_hash password (fst (getBCryptStrength w))) = false →
     fst (authenticate (username row) other w') = Fail "Wrong password").
Proof.
  intros Hrow Hid Hunique Hunlocked%includes_false Hmatch Hanswers w'.
  assert (Htwo : answers 2 w).
  { unfold answers in *. eapply Forall_forall. intros outcome Hin.
    eapply (proj1 (Forall_forall _ _) Hanswers).
    apply elem_of_take in Hin as (i & Hlookup & Hlt).
    apply elem_of_take. exists i. split; [done|lia]. }
  pose proof (updatePassword_answered w uuid password row Hrow Hid Htwo)
    as Hrun. cbv zeta in Hrun. unfold w'. rewrite Hrun. simpl.
  set (updated := mkUser (Some uuid) (username row)
                    (Some (bcrypt_hash password (fst (getBCryptStrength w))))
                    (roles row)).
  set (w1 := mkWorld _ _ _).
  assert (Hselect : select_row (ByUsername (username row)) (rows w1) =
                      Some updated).
  { apply (select_by_username_unique (rows w1) uuid updated).
    - by apply (usernames_unique_insert _ _ row).
    - apply lookup_insert_eq. }
  assert (Hcalm : storage_throws w1 = None ∧
            ∀ events,
              storage_throws
                (mkWorld (rows w1) (tail (faults w1)) events) = None).
  { unfold storage_throws, answers, w1 in *. simpl.
    destruct (faults w) as [|o1 [|o2 [|o3 [|o4 rest]]]]; simpl in *;
      try done.
    - by apply Forall_cons in Hanswers
        as [_ [_ [-> _]%Forall_cons]%Forall_cons].
    - by apply Forall_cons in Hanswers
        as [_ [_ [-> [-> _]%Forall_cons]%Forall_cons]%Forall_cons]. }
  assert (Hauth : ∀ candidate,
            authenticate (username row) candidate w1 =
            if bcrypt_compare candidate
                 (bcrypt_hash password (fst (getBCryptStrength w)))
            then (Success (public_view updated),
                  after_call (EvFindOne (ById uuid) false)
                    (mkWorld (rows w1) (tail (faults w1))
                       (trace w1 ++
                        [EvFindOne (ByUsername (username row)) true;
                         EvBcryptCompare candidate
                           (bcrypt_hash password
                              (fst (getBCryptStrength w)))])))
            else (Fail "Wrong password",
                  mkWorld (rows w1) (tail (faults w1))
                    (trace w1 ++
                     [EvFindOne (ByUsername (username row)) true;
                      EvBcryptCompare candidate
                        (bcrypt_hash password
                           (fst (getBCryptStrength w)))]))).
  { intros candidate.
    pose proof (authenticate_run (username row) candidate w1) as Hstep.
    cbv zeta in Hstep. rewrite Hstep.
    rewrite (proj1 Hcalm), Hselect. simpl.
    rewrite Hunlocked. destruct (bcrypt_compare candidate _); [|done].
    rewrite findOne_run, (proj2 Hcalm). simpl.
    by rewrite lookup_insert_eq. }
  split.
  - rewrite Hauth, Hmatch. by eexists.
  - intros other Hwrong. rewrite Hauth.
    change (bcrypt_compare other
              (bcrypt_hash password (fst (getBCryptStrength w))) = false)
      in Hwrong.
    by rewrite Hwrong.
Qed.

End DeletionMore.

Lemma filter_other_absent (x : string) (l : list string) :
  x ∉ l → filter (λ y, y ≠ x) l = l.
Proof.
  induction l as [|y l IH]; [done|].
  intros [Hne Hrest]%not_elem_of_cons.
  rewrite filter_cons_True; [|congruence]. by rewrite IH.
Qed.

Section BulkAndPaging.
Context {constants : Constants} {collaborators : Collaborators}.
Import UsersService.

Lemma array_remove_spec (role : string) (row : EUserBackend) :
  id (array_remove role row) = id row ∧
  username (array_remove role row) = username row ∧
  hashedPassword (array_remove role row) = hashedPassword row ∧
  roles (array_remove role row) = filter (λ held, held ≠ role) (roles row).
Proof.
  unfold array_remove. case_bool_decide as Hheld; [done|].
  repeat split; try done. by rewrite filter_other_absent.
Qed.

(** X12. [removeRoleEveryone], when the storage layer answers, returns
    [true] and takes the role from every account: afterwards no account
    holds it, every account keeps its id, username, hash and all its other
    roles in order, an account that did not hold the role is unchanged, and
    no account appears or disappears.  Soulbound roles and immutable
    accounts are not exempt.  When the statement throws, the call fails with
    that error and the table is unchanged. *)
Theorem removeRoleEveryone_strips (w : World) (role : string) :
  match storage_throws w with
  | Some message =>
      fst (removeRoleEveryone role w) = Fail message ∧
      rows (snd (removeRoleEveryone role w)) = rows w
  | None =>
      fst (removeRoleEveryone role w) = Success true ∧
      (∀ key, rows w !! key = None →
              rows (snd (removeRoleEveryone role w)) !! key = None) ∧
      ∀ key row, rows w !! key = Some row →
        ∃ row', rows (snd (removeRoleEveryone role w)) !! key = Some row' ∧
                id row' = id row ∧ username row' = username row ∧
                hashedPassword row' = hashedPassword row ∧
                roles row' = filter (λ held, held ≠ role) (roles row) ∧
                (role ∉ roles row') ∧
                (∀ other, other ≠ role →
                          other ∈ roles row' ↔ other ∈ roles row) ∧
                (role ∉ roles row → row' = row)
  end.
Proof.
  unfold removeRoleEveryone, bind.
  rewrite repository_update_array_remove_run.
  destruct (storage_throws w) as [message|]; [done|]. simpl.
  split; [done|]. split.
  { intros key Hnone. by rewrite lookup_fmap, Hnone. }
  intros key row Hrow. exists (array_remove role row).
  rewrite lookup_fmap, Hrow. split; [done|].
  destruct (array_remove_spec role row) as (Hid & Hname & Hhash & Hroles).
  split; [done|]. split; [done|]. split; [done|]. split; [done|].
  rewrite Hroles. split; [|split].
  - rewrite list_elem_of_filter. by intros [Hne _].
  - intros other Hother. rewrite list_elem_of_filter. tauto.
  - intros Hfree. unfold array_remove. by rewrite bool_decide_eq_false_2.
Qed.

(** X13. The bounds of [findMany]: a page size below 1 or a negative page
    index fail with "Invalid page", also when the page size is above 100 as
    well; a page size above 100 with a valid index fails with "Too many
    results".  Neither reaches the storage layer. *)
Theorem findMany_bounds (w : World) (count page : Z) :
  ((count < 1 ∨ page < 0)%Z →
   findMany count page w = (Fail "Invalid page", w)) ∧
  ((100 < count)%Z → (0 ≤ page)%Z →
   findMany count page w = (Fail "Too many results", w)).
Proof.
  unfold findMany. split.
  - intros Hbad.
    assert ((count <? 1)%Z || (page <? 0)%Z = true) as ->; [|done].
    apply orb_true_iff. destruct Hbad; [left|right]; by apply Z.ltb_lt.
  - intros Hmany Hpage.
    assert ((count <? 1)%Z || (page <? 0)%Z = false) as ->.
    { apply orb_false_iff. split; apply Z.ltb_ge; lia. }
    assert ((count >? 100)%Z = true) as ->; [|done].
    apply Z.gtb_lt. lia.
Qed.

(** X14. With a page size from 1 to 100, a page index from 0 and the
    storage layer answering, [findMany] succeeds with the accounts of that
    page: at most [count] of them, exactly as many as the table has left
    after skipping [count * page], each one a stored account, and the table
    is not changed.  A page past the end is empty, not an error. *)
Theorem findMany_page (w : World) (count page : Z) :
  (1 ≤ count ≤ 100)%Z →
  (0 ≤ page)%Z →
  storage_throws w = None →
  ∃ found w',
    findMany count page w = (Success found, w') ∧
    rows w' = rows w ∧
    length found =
      min (Z.to_nat count) (size (rows w) - Z.to_nat (count * page)) ∧
    (Z.of_nat (length found) ≤ count)%Z ∧
    (∀ user, user ∈ found →
             ∃ key row, rows w !! key = Some row ∧ user = public_view row) ∧
    ((size (rows w) ≤ Z.to_nat (count * page))%nat → found = []).
Proof.
  intros Hcount Hpage Hcalm. unfold findMany.
  assert ((count <? 1)%Z || (page <? 0)%Z = false) as ->.
  { apply orb_false_iff. split; apply Z.ltb_ge; lia. }
  assert ((count >? 100)%Z = false) as ->.
  { rewrite Z.gtb_ltb. apply Z.ltb_ge. lia. }
  unfold bind. rewrite repository_find_run, Hcalm. simpl.
  eexists _, _. split; [done|]. split; [done|].
  assert (Hlength :
            length (take (Z.to_nat count)
                      (drop (Z.to_nat (count * page))
                         (public_view <$> (map_to_list (rows w)).*2))) =
            min (Z.to_nat count) (size (rows w) - Z.to_nat (count * page))).
  { by rewrite length_take, length_drop, !length_fmap, length_map_to_list. }
  split; [done|]. split; [rewrite Hlength; lia|]. split.
  - intros user Hin%subseteq_take%subseteq_drop.
    apply list_elem_of_fmap in Hin as [row [-> Hin]].
    apply list_elem_of_fmap in Hin as [[key row'] [-> Hin]].
    exists key, row'. split; [|done]. by apply elem_of_map_to_list.
  - intros Hpast. rewrite drop_ge; [by rewrite take_nil|].
    by rewrite !length_fmap, length_map_to_list.
Qed.

End BulkAndPaging.

(** ** More on deduplication *)

Lemma makeUnique_NoDup_id (arr : list string) :
  NoDup arr → makeUnique arr = arr.
Proof.
  induction 1 as [|value rest Hfresh _ IH]; simpl; [done|].
  by rewrite IH, filter_other_absent.
Qed.

Lemma makeUnique_app_disjoint (arr1 arr2 : list string) :
  (∀ value, value ∈ arr1 → value ∉ arr2) →
  makeUnique (arr1 ++ arr2) = makeUnique arr1 ++ makeUnique arr2.
Proof.
  induction arr1 as [|value rest IH]; intros Hdisjoint; simpl; [done|].
  rewrite IH, filter_app.
  - rewrite (filter_other_absent value (makeUnique arr2)); [done|].
    rewrite elem_of_makeUnique. apply Hdisjoint, list_elem_of_here.
  - intros other Hin. by apply Hdisjoint, list_elem_of_further.
Qed.

Lemma filter_keeps_all {A : Type} (P : A → Prop) `{∀ x, Decision (P x)}
  (l : list A) :
  (∀ x, x ∈ l → P x) → filter P l = l.
Proof.
  induction l as [|x l IH]; intros Hall; [done|].
  rewrite filter_cons_True; [|apply Hall, list_elem_of_here].
  rewrite IH; [done|]. intros y Hy. by apply Hall, list_elem_of_further.
Qed.

Lemma filter_drops_all {A : Type} (P : A → Prop) `{∀ x, Decision (P x)}
  (l : list A) :
  (∀ x, x ∈ l → ¬ P x) → filter P l = [].
Proof.
  induction l as [|x l IH]; intros Hnone; [done|].
  rewrite filter_cons_False; [|apply Hnone, list_elem_of_here].
  apply IH. intros y Hy. by apply Hnone, list_elem_of_further.
Qed.

Section RoleUpdatesMore.
Context {constants : Constants} {collaborators : Collaborators}.
Import UsersService.

(** The role list a role update computes is a fixed point of the update. *)
Lemma newRoles_fixed (held requested : list string) :
  let newRoles :=
    makeUnique (filter (λ role, includes SoulBoundRolesList role) held ++
                filterAddedRoles requested) in
  makeUnique (filter (λ role, includes SoulBoundRolesList role) newRoles ++
              filterAddedRoles requested) = newRoles.
Proof.
  intros newRoles. unfold newRoles.
  set (keep := filter (λ role, includes SoulBoundRolesList role) held).
  set (add := filterAddedRoles requested).
  assert (Hkeep : ∀ role, role ∈ keep → role ∈ SoulBoundRolesList).
  { intros role Hin. by apply elem_of_rolesToKeep in Hin as [_ ?]. }
  assert (Hadd : ∀ role, role ∈ add → role ∉ SoulBoundRolesList).
  { intros role Hin. by apply elem_of_filterAddedRoles in Hin as [_ ?]. }
  rewrite (makeUnique_app_disjoint keep add).
  2:{ intros role Hin Hin'. by apply (Hadd role Hin'), Hkeep. }
  rewrite filter_app.
  rewrite (filter_keeps_all _ (makeUnique keep)).
  2:{ intros role Hin. apply (proj1 (elem_of_makeUnique _ _)) in Hin.
      by apply Is_true_true, includes_spec, Hkeep. }
  rewrite (filter_drops_all _ (makeUnique add)).
  2:{ intros role Hin Hsoul%Is_true_true%includes_spec.
      apply (proj1 (elem_of_makeUnique _ _)) in Hin.
      by apply (Hadd role). }
  rewrite app_nil_r, (makeUnique_app_disjoint (makeUnique keep) add).
  2:{ intros role Hin Hin'. apply (proj1 (elem_of_makeUnique _ _)) in Hin.
      by apply (Hadd role Hin'), Hkeep. }
  by rewrite (makeUnique_NoDup_id (makeUnique keep)) by apply NoDup_makeUnique.
Qed.

Lemma setRoles_success_inv (w w' : World) (uuid : string)
  (roles_ : list string) (user : EUserBackend) :
  well_keyed (rows w) →
  setRoles uuid roles_ w = (Success user, w') →
  ∃ row,
    rows w !! uuid = Some row ∧
    ((username row ∈ ImmutableUsersList ∧ user = public_view row ∧
      rows w' = rows w) ∨
     ((username row ∉ ImmutableUsersList) ∧
      let newRoles :=
        makeUnique (filter (λ role, includes SoulBoundRolesList role)
                      (roles row) ++ filterAddedRoles roles_) in
      user = mkUser (Some uuid) (username row) None newRoles ∧
      rows w' = <[uuid := mkUser (Some uuid) (username row)
                            (hashedPassword row) newRoles]> (rows w))).
Proof.
  intros Hkeys Hset. pose proof (setRoles_run uuid roles_ w) as Hrun.
  simpl in Hrun. rewrite Hset in Hrun.
  destruct (storage_throws w); [done|].
  destruct (rows w !! uuid) as [row|] eqn:Hrow; [|done].
  exists row. split; [done|].
  destruct (includes ImmutableUsersList (username row)) eqn:Himmutable.
  - left. apply includes_spec in Himmutable. by injection Hrun as -> ->.
  - right. apply includes_false in Himmutable. split; [done|].
    rewrite repository_save_run in Hrun.
    destruct (storage_throws _); simpl in Hrun; [done|].
    unfold saved_key in Hrun. simpl in Hrun.
    rewrite (Hkeys uuid row Hrow), Hrow in Hrun. simpl in Hrun.
    by injection Hrun as -> ->.
Qed.

(** X15. Frame of [setRoles]: whatever the outcome, in a well-keyed table
    it leaves every other account as it was, and of the account addressed
    it keeps the id, the username and the stored hash; it neither adds nor
    removes an account. *)
Theorem setRoles_frame (w : World) (uuid : string) (roles_ : list string) :
  well_keyed (rows w) →
  let w' := snd (setRoles uuid roles_ w) in
  (∀ other, other ≠ uuid → rows w' !! other = rows w !! other) ∧
  (∀ row, rows w !! uuid = Some row →
          ∃ row', rows w' !! uuid = Some row' ∧ id row' = id row ∧
                  username row' = username row ∧
                  hashedPassword row' = hashedPassword row) ∧
  (rows w !! uuid = None → rows w' !! uuid = None).
Proof.
  intros Hkeys w'. unfold w'.
  destruct (setRoles_table uuid roles_ w Hkeys) as [->|(held & Hheld & ->)].
  - split; [done|]. split; [|done]. intros row Hrow. by exists row.
  - split; [by intros other Hother; apply lookup_insert_ne|].
    split; [|congruence]. intros row Hrow.
    assert (held = row) as -> by congruence.
    eexists. rewrite lookup_insert_eq. split; [done|]. simpl.
    by rewrite (Hkeys uuid row Hrow).
Qed.

(** X16. [setRoles] is idempotent: a second successful call with the same
    role list on a well-keyed table returns the same roles as the first and
    leaves the table as the first call left it. *)
Theorem setRoles_idempotent (w w1 w2 : World) (uuid : string)
  (roles_ : list string) (user1 user2 : EUserBackend) :
  well_keyed (rows w) →
  setRoles uuid roles_ w = (Success user1, w1) →
  setRoles uuid roles_ w1 = (Success user2, w2) →
  user2 = user1 ∧ rows w2 = rows w1.
Proof.
  intros Hkeys Hfirst Hsecond.
  destruct (setRoles_success_inv _ _ _ _ _ Hkeys Hfirst)
    as (row & Hrow & [(Himmutable & -> & Hrows1)|(Hfree & Huser1 & Hrows1)]).
  - assert (Hkeys1 : well_keyed (rows w1)) by by rewrite Hrows1.
    destruct (setRoles_success_inv _ _ _ _ _ Hkeys1 Hsecond)
      as (row' & Hrow' & [(_ & -> & Hrows2)|(Hfree' & _)]).
    + split; [|done]. rewrite Hrows1 in Hrow'. congruence.
    + rewrite Hrows1 in Hrow'. congruence.
  - cbv zeta in Huser1, Hrows1.
    assert (Hkeys1 : well_keyed (rows w1)).
    { rewrite Hrows1. by apply map_Forall_insert_2. }
    destruct (setRoles_success_inv _ _ _ _ _ Hkeys1 Hsecond)
      as (row' & Hrow' & [(Himmutable' & _)|(_ & Huser2 & Hrows2)]).
    + rewrite Hrows1, lookup_insert_eq in Hrow'. injection Hrow' as <-.
      done.
    + cbv zeta in Huser2, Hrows2.
      rewrite Hrows1, lookup_insert_eq in Hrow'. injection Hrow' as <-.
      simpl in Huser2, Hrows2.
      pose proof (newRoles_fixed (roles row) roles_) as Hfixed.
      cbv zeta in Hfixed. rewrite Hfixed in Huser2, Hrows2.
      split; [congruence|]. rewrite Hrows2, Hrows1.
      apply insert_insert_eq.
Qed.

End RoleUpdatesMore.

(** ** Invariants of the account table under every operation *)

Section TableInvariants.
Context {constants : Constants} {collaborators : Collaborators}.
Import UsersService.

Lemma create_table_row (username_ password : string)
  (roles_ : option (list string)) (bypass : option bool) (w : World) :
  rows (snd (create username_ password roles_ bypass w)) = rows w ∨
  ∃ stored,
    id stored = Some (fresh (dom (rows w))) ∧
    username stored = username_ ∧
    NoDup (roles stored) ∧
    rows (snd (create username_ password roles_ bypass w)) =
      <[fresh (dom (rows w)) := stored]> (rows w) ∧
    (storage_throws w = None →
     ∀ key row, rows w !! key = Some row → username row ≠ username_).
Proof.
  destruct (create username_ password roles_ bypass w) as [[user|failure] w']
    eqn:Hcreate.
  - right. exists user.
    destruct (create_success_inv _ _ _ _ _ _ _ Hcreate)
      as (Hid & Hname & Hroles & Hrows).
    split; [done|]. split; [done|].
    split; [rewrite Hroles; destruct (default false bypass);
            apply NoDup_makeUnique|].
    split; [done|]. intros Hcalm.
    apply select_by_username_None.
    unfold create, bind in Hcreate. rewrite exists_run, Hcalm in Hcreate.
    destruct (select_row _ _); [|done].
    by rewrite bool_decide_eq_true_2 in Hcreate.
  - left. change w' with (snd (Failed (A := EUserBackend) failure, w')).
    rewrite <- Hcreate.
    pose proof (exists_run username_ w) as Hexists.
    destruct (match storage_throws w with Some _ => _ | None => _ end).
    { unfold create, bind. by rewrite Hexists. }
    destruct (create_run username_ password roles_ bypass w Hexists)
      as (entity & _ & _ & _ & Hrun).
    rewrite Hrun in Hcreate |- *. rewrite repository_save_run in Hcreate |- *.
    by destruct (storage_throws _).
Qed.

Lemma delete_table (uuid : string) (w : World) :
  rows (snd (delete uuid w)) = rows w ∨
  ∃ key, rows (snd (delete uuid w)) = base.delete key (rows w).
Proof.
  pose proof (delete_run uuid w) as Hrun. cbv zeta in Hrun. rewrite Hrun.
  destruct (storage_throws w); [by left|].
  destruct (rows w !! uuid) as [row|]; [|by left].
  destruct (includes _ _); [by left|].
  rewrite repository_remove_run. destruct (storage_throws _); [by left|].
  simpl. destruct (id row) as [key|]; [right; by exists key|by left].
Qed.

Lemma updatePassword_table (uuid password : string) (w : World) :
  well_keyed (rows w) →
  rows (snd (updatePassword uuid password w)) = rows w ∨
  ∃ row hash,
    rows w !! uuid = Some row ∧
    rows (snd (updatePassword uuid password w)) =
      <[uuid := mkUser (Some uuid) (username row) (Some hash) (roles row)]>
        (rows w).
Proof.
  intros Hkeys. pose proof (updatePassword_run uuid password w) as Hrun.
  cbv zeta in Hrun. rewrite Hrun.
  destruct (storage_throws w); [by left|].
  destruct (rows w !! uuid) as [row|] eqn:Hrow; [|by left].
  rewrite repository_save_run. destruct (storage_throws _); [by left|].
  right. eexists row, _. split; [done|]. simpl. unfold saved_key. simpl.
  rewrite (Hkeys uuid row Hrow). by rewrite Hrow.
Qed.

Lemma removeRoleEveryone_table (role : string) (w : World) :
  rows (snd (removeRoleEveryone role w)) = rows w ∨
  rows (snd (removeRoleEveryone role w)) = array_remove role <$> rows w.
Proof.
  unfold removeRoleEveryone, bind.
  rewrite repository_update_array_remove_run.
  destruct (storage_throws w); [by left|by right].
Qed.

Lemma well_keyed_array_remove (role : string)
  (table : gmap string EUserBackend) :
  well_keyed table → well_keyed (array_remove role <$> table).
Proof.
  intros Hkeys key row' Hrow'. rewrite lookup_fmap in Hrow'.
  destruct (table !! key) as [row|] eqn:Hrow; [|done].
  injection Hrow' as <-.
  destruct (array_remove_spec role row) as (-> & _). by apply (Hkeys key).
Qed.

Lemma perform_keeps (operation : Operation) (w : World) :
  well_keyed (rows w) → roles_distinct (rows w) →
  well_keyed (rows (perform operation w)) ∧
  roles_distinct (rows (perform operation w)).
Proof.
  intros Hkeys Hdistinct.
  destruct operation as [username_ password roles_ bypass|uuid|uuid roles_
                        |role|uuid password]; simpl.
  - destruct (create_table_row username_ password roles_ bypass w)
      as [->|(stored & Hid & _ & Hnodup & -> & _)]; [done|].
    split; by apply map_Forall_insert_2.
  - destruct (delete_table uuid w) as [->|(key & ->)]; [done|].
    split; by apply map_Forall_delete.
  - destruct (setRoles_table uuid roles_ w Hkeys)
      as [->|(held & Hheld & ->)]; [done|].
    split; apply map_Forall_insert_2; try done. apply NoDup_makeUnique.
  - destruct (removeRoleEveryone_table role w) as [->| ->]; [done|].
    split; [by apply well_keyed_array_remove|].
    intros key row' Hrow'. rewrite lookup_fmap in Hrow'.
    destruct (rows w !! key) as [row|] eqn:Hrow; [|done].
    injection Hrow' as <-.
    destruct (array_remove_spec role row) as (_ & _ & _ & ->).
    by apply NoDup_filter, (Hdistinct key).
  - destruct (updatePassword_table uuid password w Hkeys)
      as [->|(row & hash & Hrow & ->)]; [done|].
    split; apply map_Forall_insert_2; try done. simpl.
    by apply (Hdistinct uuid row).
Qed.

(** X17. No operation of the service puts a role twice on an account:
    starting from a well-keyed table without duplicate roles, after any
    sequence of create, delete, set-roles, remove-role-from-everyone and
    update-password requests, and whatever the storage layer does, every
    stored account still has each role once and carries the key it is stored
    under. *)
Theorem operations_keep_roles_distinct (operations : list Operation)
  (w : World) :
  well_keyed (rows w) →
  roles_distinct (rows w) →
  well_keyed (rows (perform_all operations w)) ∧
  ∀ key row, rows (perform_all operations w) !! key = Some row →
             NoDup (roles row) ∧ id row = Some key.
Proof.
  revert w. induction operations as [|operation operations IH];
    intros w Hkeys Hdistinct; simpl.
  - split; [done|]. intros key row Hrow.
    split; [by apply (Hdistinct key)|by apply (Hkeys key)].
  - destruct (perform_keeps operation w Hkeys Hdistinct) as [Hkeys' Hdistinct'].
    by apply IH.
Qed.

Lemma perform_quiet (operation : Operation) (w : World) :
  faults w = [] → faults (perform operation w) = [].
Proof.
  intros Hquiet.
  assert (Hcalm : storage_throws w = None)
    by (unfold storage_throws; by rewrite Hquiet).
  destruct operation as [username_ password roles_ bypass|uuid|uuid roles_
                        |role|uuid password]; simpl.
  - pose proof (exists_run username_ w) as Hexists.
    destruct (match storage_throws w with Some _ => _ | None => _ end).
    { unfold create, bind. rewrite Hexists. simpl. by rewrite Hquiet. }
    destruct (create_run username_ password roles_ bypass w Hexists)
      as (entity & _ & _ & _ & ->).
    clear Hexists Hcalm. rewrite repository_save_run.
    destruct (storage_throws _); simpl; by rewrite Hquiet.
  - pose proof (delete_run uuid w) as Hrun. cbv zeta in Hrun.
    rewrite Hrun, Hcalm. clear Hrun Hcalm.
    destruct (rows w !! uuid) as [row|]; [|simpl; by rewrite Hquiet].
    destruct (includes _ _); [simpl; by rewrite Hquiet|].
    rewrite repository_remove_run.
    destruct (storage_throws _); simpl; by rewrite Hquiet.
  - pose proof (setRoles_run uuid roles_ w) as Hrun. cbv zeta in Hrun.
    rewrite Hrun, Hcalm. clear Hrun Hcalm.
    destruct (rows w !! uuid) as [row|]; [|simpl; by rewrite Hquiet].
    destruct (includes _ _); [simpl; by rewrite Hquiet|].
    rewrite repository_save_run.
    destruct (storage_throws _); simpl; by rewrite Hquiet.
  - unfold removeRoleEveryone, bind.
    rewrite repository_update_array_remove_run, Hcalm. simpl.
    by rewrite Hquiet.
  - pose proof (updatePassword_run uuid password w) as Hrun.
    cbv zeta in Hrun. rewrite Hrun, Hcalm. clear Hrun Hcalm.
    destruct (rows w !! uuid) as [row|]; [|simpl; by rewrite Hquiet].
    rewrite repository_save_run.
    destruct (storage_throws _); simpl; by rewrite Hquiet.
Qed.

Lemma usernames_unique_array_remove (role : string)
  (table : gmap string EUserBackend) :
  usernames_unique table → usernames_unique (array_remove role <$> table).
Proof.
  intros Hunique key1 key2 row1' row2' Hrow1' Hrow2' Hsame.
  rewrite lookup_fmap in Hrow1', Hrow2'.
  destruct (table !! key1) as [row1|] eqn:Hrow1; [|done].
  destruct (table !! key2) as [row2|] eqn:Hrow2; [|done].
  injection Hrow1' as <-. injection Hrow2' as <-.
  destruct (array_remove_spec role row1) as (_ & Hname1 & _).
  destruct (array_remove_spec role row2) as (_ & Hname2 & _).
  apply (Hunique key1 key2 row1 row2 Hrow1 Hrow2). congruence.
Qed.

Lemma perform_keeps_unique (operation : Operation) (w : World) :
  storage_throws w = None →
  well_keyed (rows w) → usernames_unique (rows w) →
  usernames_unique (rows (perform operation w)).
Proof.
  intros Hcalm Hkeys Hunique.
  destruct operation as [username_ password roles_ bypass|uuid|uuid roles_
                        |role|uuid password]; simpl.
  - destruct (create_table_row username_ password roles_ bypass w)
      as [->|(stored & Hid & Hname & _ & -> & Hfree)]; [done|].
    specialize (Hfree Hcalm).
    assert (Hfresh : rows w !! fresh (dom (rows w)) = None)
      by apply not_elem_of_dom, is_fresh.
    intros key1 key2 row1 row2 Hrow1 Hrow2 Hsame.
    destruct (decide (fresh (dom (rows w)) = key1)) as [<-|Hne1];
      destruct (decide (fresh (dom (rows w)) = key2)) as [<-|Hne2];
      [done| | |].
    + rewrite lookup_insert_eq in Hrow1. injection Hrow1 as <-.
      rewrite lookup_insert_ne in Hrow2; [|done].
      destruct (Hfree key2 row2 Hrow2). congruence.
    + rewrite lookup_insert_eq in Hrow2. injection Hrow2 as <-.
      rewrite lookup_insert_ne in Hrow1; [|done].
      destruct (Hfree key1 row1 Hrow1). congruence.
    + rewrite lookup_insert_ne in Hrow1, Hrow2; [|done..].
      by eapply Hunique.
  - destruct (delete_table uuid w) as [->|(key & ->)]; [done|].
    intros key1 key2 row1 row2 Hrow1%lookup_delete_Some Hrow2%lookup_delete_Some.
    destruct Hrow1 as [_ Hrow1], Hrow2 as [_ Hrow2]. by eapply Hunique.
  - destruct (setRoles_table uuid roles_ w Hkeys)
      as [->|(held & Hheld & ->)]; [done|].
    by apply (usernames_unique_insert _ _ held).
  - destruct (removeRoleEveryone_table role w) as [->| ->]; [done|].
    by apply usernames_unique_array_remove.
  - destruct (updatePassword_table uuid password w Hkeys)
      as [->|(row & hash & Hrow & ->)]; [done|].
    by apply (usernames_unique_insert _ _ row).
Qed.

(** X18. As long as the storage layer answers every call, usernames stay
    unique: starting from a well-keyed table in which no two accounts share
    a username, no sequence of operations of the service makes two accounts
    with the same username. *)
Theorem operations_keep_usernames_unique (operations : list Operation)
  (w : World) :
  faults w = [] →
  well_keyed (rows w) →
  usernames_unique (rows w) →
  usernames_unique (rows (perform_all operations w)).
Proof.
  revert w. induction operations as [|operation operations IH];
    intros w Hquiet Hkeys Hunique; simpl; [done|].
  apply IH.
  - by apply perform_quiet.
  - assert (Hkeys' : ∀ operation' w', well_keyed (rows w') →
              well_keyed (rows (perform operation' w'))).
    { intros operation' w' Hkeys'.
      destruct operation' as [username_ password roles_ bypass|uuid
                             |uuid roles_|role|uuid password]; simpl.
      - destruct (create_table_row username_ password roles_ bypass w')
          as [->|(stored & Hid & _ & _ & -> & _)]; [done|].
        by apply map_Forall_insert_2.
      - destruct (delete_table uuid w') as [->|(key & ->)]; [done|].
        by apply map_Forall_delete.
      - destruct (setRoles_table uuid roles_ w' Hkeys')
          as [->|(held & Hheld & ->)]; [done|].
        by apply map_Forall_insert_2.
      - destruct (removeRoleEveryone_table role w') as [->| ->]; [done|].
        by apply well_keyed_array_remove.
      - destruct (updatePassword_table uuid password w' Hkeys')
          as [->|(row & hash & Hrow & ->)]; [done|].
        by apply map_Forall_insert_2. }
    by apply Hkeys'.
  - apply perform_keeps_unique; [|done..].
    unfold storage_throws. by rewrite Hquiet.
Qed.

End TableInvariants.

(** * Further properties of the authorization gate *)

Section GateMore.
Context {constants : Constants} {collaborators : Collaborators}.
Import MainAuthGuard.

Lemma getPermissions_run (uuid : string) (w : World) :
  UsersService.getPermissions uuid w =
  (match storage_throws w with
   | Some message => Fail message
   | None =>
       match rows w !! uuid with
       | None => Fail "User not found"
       | Some row => rolesService_getPermissions (roles row)
       end
   end,
   after_call (EvFindOne (ById uuid) false) w).
Proof.
  unfold UsersService.getPermissions, bind. rewrite findOne_run.
  destruct (storage_throws w); [done|]. by destruct (rows w !! uuid).
Qed.

(** The gate, step by step. *)
Lemma canActivate_run (context : ExecutionContext) (w : World) :
  canActivate context w =
  match passportCanActivate context with
  | Threw e => (Threw e, w)
  | Returned false =>
      (Threw InternalServerErrorException,
       snd (logger LogError
              "Main Auth has denied access, this should not happen" w))
  | Returned true =>
      match requestUser context with
      | MisshapenUser =>
          (Threw InternalServerErrorException,
           snd (logger LogWarn
                  "Invalid user object, where it should always be valid" w))
      | ShapedUser user =>
          if truthy (id user) then
            match extractPermissions context with
            | Failed failure =>
                (Threw InternalServerErrorException,
                 snd (logger LogError
                        ("Fetching route permission failed: " +:+
                         getReason failure) w))
            | Success required =>
                let (held, w') :=
                  UsersService.getPermissions (default "" (id user)) w in
                match held with
                | Failed failure =>
                    (Threw InternalServerErrorException,
                     snd (logger LogWarn
                            ("Fetching user permissions failed: " +:+
                             getReason failure) w'))
                | Success held =>
                    (if forallb (λ permission,
                                   UsersService.includes held permission)
                          required
                     then Returned true
                     else Threw (ForbiddenException "Permission denied"),
                     w')
                end
            end
          else
            (Threw InternalServerErrorException,
             snd (logger LogError "User has no id, this should not happen"
                    w))
      end
  end.
Proof.
  unfold canActivate.
  destruct (passportCanActivate context) as [[|]|e]; [|done|done].
  simpl. unfold validateUser, bind at 1.
  destruct (requestUser context) as [user|]; [|done]. simpl.
  destruct (truthy (id user)); [|done]. simpl.
  destruct (extractPermissions context) as [required|failure]; [|done].
  unfold bind.
  destruct (UsersService.getPermissions _ w) as [[held|failure] w'];
    [|done]. by destruct (forallb _ _).
Qed.

(** The outcome of the gate. *)
Lemma canActivate_outcome (context : ExecutionContext) (w : World) :
  fst (canActivate context w) =
  match passportCanActivate context with
  | Threw e => Threw e
  | Returned false => Threw InternalServerErrorException
  | Returned true =>
      match requestUser context with
      | MisshapenUser => Threw InternalServerErrorException
      | ShapedUser user =>
          if truthy (id user) then
            match extractPermissions context with
            | Failed _ => Threw InternalServerErrorException
            | Success required =>
                match fst (UsersService.getPermissions
                             (default "" (id user)) w) with
                | Failed _ => Threw InternalServerErrorException
                | Success held =>
                    if forallb (λ permission,
                                  UsersService.includes held permission)
                         required
                    then Returned true
                    else Threw (ForbiddenException "Permission denied")
                end
            end
          else Threw InternalServerErrorException
      end
  end.
Proof.
  rewrite canActivate_run.
  destruct (passportCanActivate context) as [[|]|e]; [|done|done].
  destruct (requestUser context) as [user|]; [|done].
  destruct (truthy (id user)); [|done].
  destruct (extractPermissions context) as [required|failure]; [|done].
  by destruct (UsersService.getPermissions _ w) as [[held|failure] w'].
Qed.

(** X19. The gate allows a request only if passport accepted it, the
    identity is well shaped with a non-empty id under which an account is
    stored, the route has a permission declaration, and every declared
    permission is among those the role registry grants for the roles of the
    stored account (the roles in the identity claim are not consulted). *)
Theorem canActivate_allows_only (context : ExecutionContext) (w : World) :
  fst (canActivate context w) = Returned true →
  passportCanActivate context = Returned true ∧
  ∃ user uuid row required held,
    requestUser context = ShapedUser user ∧
    id user = Some uuid ∧ uuid ≠ "" ∧
    rows w !! uuid = Some row ∧
    extractPermissions context = Success required ∧
    rolesService_getPermissions (roles row) = Success held ∧
    ∀ permission, permission ∈ required → permission ∈ held.
Proof.
  rewrite canActivate_outcome.
  destruct (passportCanActivate context) as [[|]|e]; [|done|done].
  destruct (requestUser context) as [user|]; [|done].
  destruct (truthy (id user)) eqn:Hid; [|done].
  apply truthy_spec in Hid as (uuid & Hid & Hnonempty).
  destruct (extractPermissions context) as [required|failure]; [|done].
  rewrite Hid, getPermissions_run. simpl.
  destruct (storage_throws w); [done|].
  destruct (rows w !! uuid) as [row|] eqn:Hrow; [|done].
  destruct (rolesService_getPermissions (roles row)) as [held|failure] eqn:Hheld;
    [|done].
  destruct (forallb (λ permission, UsersService.includes held permission)
              required) eqn:Hall; [|done]. intros _.
  split; [done|]. exists user, uuid, row, required, held.
  repeat (split; [done|]). by apply every_includes.
Qed.

(** X20. What the gate never does: it never returns [false] (a refusal is
    always an exception), it never writes to the account table, and its one
    repository call, if any, is the lookup of the account. *)
Theorem canActivate_never (context : ExecutionContext) (w : World) :
  fst (canActivate context w) ≠ Returned false ∧
  rows (snd (canActivate context w)) = rows w ∧
  ∃ events, trace (snd (canActivate context w)) = trace w ++ events ∧
            Forall (λ e, is_write e = false) events.
Proof.
  split.
  { rewrite canActivate_outcome.
    destruct (passportCanActivate context) as [[|]|e]; [|done|done].
    destruct (requestUser context) as [user|]; [|done].
    destruct (truthy (id user)); [|done].
    destruct (extractPermissions context) as [required|failure]; [|done].
    destruct (fst _) as [held|failure]; [|done].
    by destruct (forallb
                   (λ permission, UsersService.includes held permission)
                   required). }
  rewrite canActivate_run.
  destruct (passportCanActivate context) as [[|]|e].
  - destruct (requestUser context) as [user|].
    + destruct (truthy (id user)).
      * destruct (extractPermissions context) as [required|failure].
        -- rewrite getPermissions_run.
           destruct (match storage_throws w with Some _ => _ | None => _ end)
             as [held|failure].
           ++ split; [done|].
              exists [EvFindOne (ById (default "" (id user))) false].
              split; [done|]. by repeat constructor.
           ++ split; [done|]. eexists [_; _]. simpl.
              rewrite <- (assoc_L (++)). split; [done|].
              by repeat constructor.
        -- split; [done|]. eexists [_]. split; [done|]. by repeat constructor.
      * split; [done|]. eexists [_]. split; [done|]. by repeat constructor.
    + split; [done|]. eexists [_]. split; [done|]. by repeat constructor.
  - split; [done|]. eexists [_]. split; [done|]. by repeat constructor.
  - split; [done|]. exists []. by rewrite app_nil_r.
Qed.

(** X21. When passport itself did not throw, the gate answers
    [ForbiddenException] only with the message "Permission denied", and only
    when the identity, its account and the declaration were all resolved
    and some declared permission is not held. *)
Theorem canActivate_forbidden_only (context : ExecutionContext) (w : World)
  (accepted : bool) (message : string) :
  passportCanActivate context = Returned accepted →
  fst (canActivate context w) = Threw (ForbiddenException message) →
  message = "Permission denied" ∧
  ∃ user uuid row required held permission,
    requestUser context = ShapedUser user ∧
    id user = Some uuid ∧
    rows w !! uuid = Some row ∧
    extractPermissions context = Success required ∧
    rolesService_getPermissions (roles row) = Success held ∧
    permission ∈ required ∧ permission ∉ held.
Proof.
  intros Hpassport. rewrite canActivate_outcome, Hpassport.
  destruct accepted; [|done].
  destruct (requestUser context) as [user|]; [|done].
  destruct (truthy (id user)) eqn:Hid; [|done].
  apply truthy_spec in Hid as (uuid & Hid & Hnonempty).
  destruct (extractPermissions context) as [required|failure]; [|done].
  rewrite Hid, getPermissions_run. simpl.
  destruct (storage_throws w); [done|].
  destruct (rows w !! uuid) as [row|] eqn:Hrow; [|done].
  destruct (rolesService_getPermissions (roles row)) as [held|failure] eqn:Hheld;
    [|done].
  destruct (forallb (λ permission, UsersService.includes held permission)
              required) eqn:Hall; [done|]. intros [= <-].
  split; [done|].
  assert (Hmissing : ∃ permission, permission ∈ required ∧ permission ∉ held).
  { clear -Hall. induction required as [|permission required IH]; [done|].
    simpl in Hall. apply andb_false_iff in Hall as [Hhere|Hthere].
    - exists permission. split; [apply list_elem_of_here|].
      by apply includes_false.
    - destruct (IH Hthere) as (other & Hin & Hnot).
      exists other. split; [by apply list_elem_of_further|done]. }
  destruct Hmissing as (permission & Hin & Hnot).
  by exists user, uuid, row, required, held, permission.
Qed.

(** X22. Every broken precondition of the decision is an internal error,
    not a refusal: passport answering [false], a misshapen identity, an
    identity without id or with an empty one, and, for a declared route, an
    id under which no account is stored, a storage layer that throws during
    the lookup, or a role registry that fails. *)
Theorem canActivate_internal_errors (context : ExecutionContext) (w : World) :
  (passportCanActivate context = Returned false →
   fst (canActivate context w) = Threw InternalServerErrorException) ∧
  (passportCanActivate context = Returned true →
   requestUser context = MisshapenUser →
   fst (canActivate context w) = Threw InternalServerErrorException) ∧
  (∀ user,
     passportCanActivate context = Returned true →
     requestUser context = ShapedUser user →
     id user = None ∨ id user = Some "" →
     fst (canActivate context w) = Threw InternalServerErrorException) ∧
  (∀ user uuid,
     passportCanActivate context = Returned true →
     requestUser context = ShapedUser user →
     id user = Some uuid →
     rows w !! uuid = None ∨ is_Some (storage_throws w) ∨
     (∃ row, rows w !! uuid = Some row ∧
             HasFailed (rolesService_getPermissions (roles row)) = true) →
     fst (canActivate context w) = Threw InternalServerErrorException).
Proof.
  rewrite canActivate_outcome. split; [by intros ->|].
  split; [by intros -> ->|]. split.
  - intros user -> -> [Hid|Hid]; by rewrite Hid.
  - intros user uuid -> -> Hid Hbroken. rewrite Hid.
    destruct (truthy (Some uuid)); [|done].
    destruct (extractPermissions context) as [required|failure]; [|done].
    rewrite getPermissions_run. simpl.
    destruct Hbroken as [Hnone|[[message Hthrows]|(row & Hrow & Hfailed)]].
    + rewrite Hnone. by destruct (storage_throws w).
    + by rewrite Hthrows.
    + rewrite Hrow. destruct (storage_throws w); [done|].
      by destruct (rolesService_getPermissions (roles row)).
Qed.

(** X23. [extractPermissions] succeeds exactly when the method carries a
    well-formed declaration, or the method carries none (undefined or null)
    and the class carries a well-formed one.  A malformed declaration on the
    method is not replaced by the one of the class, and an empty declaration
    on the method is a declaration. *)
Theorem extractPermissions_success (context : ExecutionContext)
  (declared : Permissions) :
  extractPermissions context = Success declared ↔
  handlerPermissions context = JsPermissions declared ∨
  ((handlerPermissions context = JsUndefined ∨
    handlerPermissions context = JsNull) ∧
   classPermissions context = JsPermissions declared).
Proof.
  unfold extractPermissions.
  destruct (handlerPermissions context) as [| |handler|];
    destruct (classPermissions context) as [| |class|]; simpl;
    split; try done; try (intros [= <-]; auto; fail);
    try (intros [[= <-]|[[?|?] [= <-]]]; done);
    try (intros [?|[[?|?] ?]]; done).
Qed.

End GateMore.

(** * Further worked examples *)

Lemma NoDup_fmap_inj_on {A B : Type} (f : A → B) (l : list A) (x y : A) :
  NoDup (f <$> l) → x ∈ l → y ∈ l → f x = f y → x = y.
Proof.
  induction l as [|z l IH]; simpl; [by intros _ Hx; inversion Hx|].
  intros [Hfresh Hrest]%NoDup_cons Hx%elem_of_cons Hy%elem_of_cons Hsame.
  destruct Hx as [->|Hx], Hy as [->|Hy]; [done| | |by apply IH].
  - destruct Hfresh. rewrite Hsame. by apply list_elem_of_fmap_2.
  - destruct Hfresh. rewrite <- Hsame. by apply list_elem_of_fmap_2.
Qed.

(** Uniqueness of usernames can be checked on the list of rows. *)
Lemma usernames_unique_NoDup (table : gmap string EUserBackend) :
  NoDup ((λ entry, username (snd entry)) <$> map_to_list table) →
  usernames_unique table.
Proof.
  intros Hnodup key1 key2 row1 row2 Hrow1 Hrow2 Hsame.
  apply elem_of_map_to_list in Hrow1, Hrow2.
  by pose proof (NoDup_fmap_inj_on _ _ (key1, row1) (key2, row2)
                   Hnodup Hrow1 Hrow2 Hsame) as [= -> _].
Qed.

Section MoreExamples.
Import UsersService MainAuthGuard.
Existing Instance demo_constants.
Existing Instance demo_collaborators.

Example demo_usernames_unique : usernames_unique demo_table.
Proof.
  apply usernames_unique_NoDup.
  apply (bool_decide_unpack
           (NoDup ((λ entry, username (snd entry)) <$> map_to_list demo_table))).
  vm_compute. exact I.
Qed.

Lemma exists_stored_bob :
  fst (exists_ "bob" demo_world) = true ↔
  ∃ key row, rows demo_world !! key = Some row ∧ username row = "bob".
Proof. apply (exists_stored demo_world "bob"). reflexivity. Defined.

Lemma create_bypass_roles_root :
  roles root_row = makeUnique (default [] (Some ["guest"; "admin"; "guest"])) ∧
  NoDup (roles root_row) ∧
  (∀ role, role ∈ roles root_row ↔
           role ∈ default [] (Some ["guest"; "admin"; "guest"])).
Proof.
  apply (create_bypass_roles demo_world
           (snd (create "root" "toor" (Some ["guest"; "admin"; "guest"])
                   (Some true) demo_world))
           "root" "toor" (Some ["guest"; "admin"; "guest"]) root_row).
  vm_compute. reflexivity.
Defined.

Lemma create_hashes_password_alice :
  hashedPassword alice_row =
    Some (bcrypt_hash "wonderland"
            (match getNumberPreference_BCryptStrength with
             | Success strength => strength
             | Failed _ => 12%Z
             end)) ∧
  ∃ key, rows alice_world !! key = Some alice_row.
Proof.
  apply (create_hashes_password demo_world alice_world "alice" "wonderland"
           (Some ["editor"]) None alice_row).
  vm_compute. reflexivity.
Defined.

Lemma create_then_authenticate_alice :
  (∃ w'', authenticate "alice" "wonderland" alice_world =
            (Success (public_view alice_row), w'') ∧
          username (public_view alice_row) = "alice" ∧
          rows w'' = rows alice_world) ∧
  (∀ wrong,
     bcrypt_compare wrong
       (bcrypt_hash "wonderland" (fst (getBCryptStrength demo_world))) =
       false →
     fst (authenticate "alice" wrong alice_world) = Fail "Wrong password").
Proof.
  apply (create_then_authenticate demo_world alice_world "alice" "wonderland"
           (Some ["editor"]) None alice_row).
  - apply select_by_username_None. vm_compute. reflexivity.
  - vm_compute. reflexivity.
  - apply (bool_decide_unpack ("alice" ∉ LockedLoginUsersList)).
    vm_compute. exact I.
  - vm_compute. reflexivity.
  - apply (bool_decide_unpack (answers 2 alice_world)). vm_compute. exact I.
Defined.

Lemma authenticate_success_sound_bob :
  ∃ row,
    select_row (ByUsername "bob") (rows demo_world) = Some row ∧
    username row = "bob" ∧
    ("bob" ∉ LockedLoginUsersList) ∧
    bcrypt_compare "hunter2" (default "" (hashedPassword row)) = true ∧
    (well_keyed (rows demo_world) → public_view bob_row = public_view row).
Proof.
  apply (authenticate_success_sound demo_world
           (snd (authenticate "bob" "hunter2" demo_world)) "bob" "hunter2"
           (public_view bob_row)).
  vm_compute. reflexivity.
Defined.

Lemma delete_removes_bob :
  let w1 := after_call (EvFindOne (ById "3") false) demo_world in
  (storage_throws w1 = None →
   ∃ w', delete "3" demo_world = (Success (public_view bob_row), w') ∧
         rows w' = base.delete "3" (rows demo_world) ∧
         rows w' !! "3" = None ∧
         (∀ other, other ≠ "3" →
                   rows w' !! other = rows demo_world !! other) ∧
         (storage_throws w' = None →
          fst (findOne "3" w') = Fail "User not found")) ∧
  (∀ message, storage_throws w1 = Some message →
   ∃ w', delete "3" demo_world = (Fail message, w') ∧
         rows w' = rows demo_world).
Proof.
  apply (delete_removes demo_world "3" bob_row); try reflexivity.
  apply (bool_decide_unpack ("bob" ∉ UndeletableUsersList)).
  vm_compute. exact I.
Defined.

Lemma unknown_id_not_found_nine :
  let w1 := after_call (EvFindOne (ById "9") false) demo_world in
  delete "9" demo_world = (Fail "User not found", w1) ∧
  setRoles "9" ["editor"] demo_world = (Fail "User not found", w1) ∧
  updatePassword "9" "secret" demo_world = (Fail "User not found", w1) ∧
  getPermissions "9" demo_world = (Fail "User not found", w1) ∧
  rows w1 = rows demo_world.
Proof.
  apply (unknown_id_not_found demo_world "9" "secret" ["editor"]);
    reflexivity.
Defined.

Lemma updatePassword_replaces_hash_bob :
  let updated :=
    mkUser (Some "3") (username bob_row)
      (Some (bcrypt_hash "correct horse" (fst (getBCryptStrength demo_world))))
      (roles bob_row) in
  ∃ w', updatePassword "3" "correct horse" demo_world =
          (Success updated, w') ∧
        rows w' = <["3" := updated]> (rows demo_world) ∧
        rows w' !! "3" = Some updated ∧
        ∀ other, other ≠ "3" → rows w' !! other = rows demo_world !! other.
Proof.
  apply (updatePassword_replaces_hash demo_world "3" "correct horse" bob_row);
    try reflexivity.
  apply (bool_decide_unpack (answers 2 demo_world)). vm_compute. exact I.
Defined.

Lemma updatePassword_then_authenticate_bob :
  let w' := snd (updatePassword "3" "correct horse" demo_world) in
  (∃ w'', authenticate (username bob_row) "correct horse" w' =
            (Success (mkUser (Some "3") (username bob_row) None
                        (roles bob_row)), w'')) ∧
  (∀ other,
     bcrypt_compare other
       (bcrypt_hash "correct horse" (fst (getBCryptStrength demo_world))) =
       false →
     fst (authenticate (username bob_row) other w') = Fail "Wrong password").
Proof.
  apply (updatePassword_then_authenticate demo_world "3" "correct horse"
           bob_row); try reflexivity.
  - apply usernames_unique_NoDup.
    apply (bool_decide_unpack
             (NoDup ((λ entry, username (snd entry)) <$>
                     map_to_list (rows demo_world)))).
    vm_compute. exact I.
  - apply (bool_decide_unpack ("bob" ∉ LockedLoginUsersList)).
    vm_compute. exact I.
  - apply (bool_decide_unpack (answers 4 demo_world)). vm_compute. exact I.
Defined.

Lemma findMany_bounds_demo :
  findMany 0 0 demo_world = (Fail "Invalid page", demo_world) ∧
  findMany 101 (-1) demo_world = (Fail "Invalid page", demo_world) ∧
  findMany 101 0 demo_world = (Fail "Too many results", demo_world).
Proof.
  split; [|split].
  - apply (proj1 (findMany_bounds demo_world 0 0)). left. reflexivity.
  - apply (proj1 (findMany_bounds demo_world 101 (-1))). right. reflexivity.
  - apply (proj2 (findMany_bounds demo_world 101 0)); [reflexivity|].
    discriminate.
Defined.

Lemma findMany_page_second :
  ∃ found w',
    findMany 2 1 demo_world = (Success found, w') ∧
    rows w' = rows demo_world ∧
    length found =
      min (Z.to_nat 2) (size (rows demo_world) - Z.to_nat (2 * 1)) ∧
    (Z.of_nat (length found) ≤ 2)%Z ∧
    (∀ user, user ∈ found →
             ∃ key row, rows demo_world !! key = Some row ∧
                        user = public_view row) ∧
    ((size (rows demo_world) ≤ Z.to_nat (2 * 1))%nat → found = []).
Proof.
  apply (findMany_page demo_world 2 1).
  - split; discriminate.
  - discriminate.
  - reflexivity.
Defined.

Example findMany_second_page_holds_one :
  length (match fst (findMany 2 1 demo_world) with
          | Success found => found
          | Failed _ => []
          end) = 1.
Proof. vm_compute. reflexivity. Qed.

Lemma setRoles_frame_bob :
  let w' := snd (setRoles "3" ["editor"] demo_world) in
  (∀ other, other ≠ "3" → rows w' !! other = rows demo_world !! other) ∧
  (∀ row, rows demo_world !! "3" = Some row →
          ∃ row', rows w' !! "3" = Some row' ∧ id row' = id row ∧
                  username row' = username row ∧
                  hashedPassword row' = hashedPassword row) ∧
  (rows demo_world !! "3" = None → rows w' !! "3" = None).
Proof.
  apply (setRoles_frame demo_world "3" ["editor"]).
  apply (bool_decide_unpack (well_keyed (rows demo_world))).
  vm_compute. exact I.
Defined.

Lemma setRoles_idempotent_bob :
  mkUser (Some "3") "bob" None ["editor"] =
    mkUser (Some "3") "bob" None ["editor"] ∧
  rows (snd (setRoles "3" ["editor"; "editor"; "guest"]
               (snd (setRoles "3" ["editor"; "editor"; "guest"]
                       demo_world)))) =
    rows (snd (setRoles "3" ["editor"; "editor"; "guest"] demo_world)).
Proof.
  apply (setRoles_idempotent demo_world
           (snd (setRoles "3" ["editor"; "editor"; "guest"] demo_world))
           (snd (setRoles "3" ["editor"; "editor"; "guest"]
                   (snd (setRoles "3" ["editor"; "editor"; "guest"]
                           demo_world))))
           "3" ["editor"; "editor"; "guest"]).
  - apply (bool_decide_unpack (well_keyed (rows demo_world))).
    vm_compute. exact I.
  - vm_compute. reflexivity.
  - vm_compute. reflexivity.
Defined.

Lemma operations_keep_roles_distinct_demo :
  let operations :=
    [OpCreate "carol" "pw" (Some ["editor"; "editor"]) None;
     OpSetRoles "3" ["editor"; "viewer"; "editor"];
     OpRemoveRoleEveryone "viewer";
     OpUpdatePassword "1" "rotated";
     OpDelete "3"] in
  well_keyed (rows (perform_all operations flaky_world)) ∧
  ∀ key row, rows (perform_all operations flaky_world) !! key = Some row →
             NoDup (roles row) ∧ id row = Some key.
Proof.
  apply (operations_keep_roles_distinct _ flaky_world).
  - apply (bool_decide_unpack (well_keyed (rows flaky_world))).
    vm_compute. exact I.
  - apply (bool_decide_unpack (roles_distinct (rows flaky_world))).
    vm_compute. exact I.
Defined.

Lemma operations_keep_usernames_unique_demo :
  usernames_unique
    (rows (perform_all
             [OpCreate "carol" "pw" None None;
              OpCreate "bob" "again" None (Some true);
              OpUpdatePassword "3" "rotated";
              OpDelete "3";
              OpCreate "bob" "reborn" None None]
             demo_world)).
Proof.
  apply (operations_keep_usernames_unique _ demo_world).
  - reflexivity.
  - apply (bool_decide_unpack (well_keyed (rows demo_world))).
    vm_compute. exact I.
  - apply usernames_unique_NoDup.
    apply (bool_decide_unpack
             (NoDup ((λ entry, username (snd entry)) <$>
                     map_to_list (rows demo_world)))).
    vm_compute. exact I.
Defined.

Lemma canActivate_allows_only_admin :
  passportCanActivate upload_context = Returned true ∧
  ∃ user uuid row required held,
    requestUser upload_context = ShapedUser user ∧
    id user = Some uuid ∧ uuid ≠ "" ∧
    rows demo_world !! uuid = Some row ∧
    extractPermissions upload_context = Success required ∧
    rolesService_getPermissions (roles row) = Success held ∧
    ∀ permission, permission ∈ required → permission ∈ held.
Proof.
  apply (canActivate_allows_only upload_context demo_world).
  vm_compute. reflexivity.
Defined.

Lemma canActivate_forbidden_only_bob :
  "Permission denied" = "Permission denied" ∧
  ∃ user uuid row required held permission,
    requestUser bob_upload_context = ShapedUser user ∧
    id user = Some uuid ∧
    rows demo_world !! uuid = Some row ∧
    extractPermissions bob_upload_context = Success required ∧
    rolesService_getPermissions (roles row) = Success held ∧
    permission ∈ required ∧ permission ∉ held.
Proof.
  apply (canActivate_forbidden_only bob_upload_context demo_world true
           "Permission denied").
  - reflexivity.
  - vm_compute. reflexivity.
Defined.

Lemma canActivate_internal_errors_demo :
  fst (canActivate anonymous_context demo_world) =
    Threw InternalServerErrorException ∧
  fst (canActivate bob_upload_context flaky_world) =
    Threw InternalServerErrorException.
Proof.
  destruct (canActivate_internal_errors anonymous_context demo_world)
    as (_ & _ & Hnoid & _).
  destruct (canActivate_internal_errors bob_upload_context flaky_world)
    as (_ & _ & _ & Hbroken).
  split.
  - apply (Hnoid (mkUser None "guest" None ["guest"])); try reflexivity.
    by left.
  - apply (Hbroken (public_view bob_row) "3"); try reflexivity.
    right. left. by exists "Connection terminated".
Defined.

Lemma extractPermissions_success_routes :
  (extractPermissions upload_context = Success ["image-upload"]) ∧
  (extractPermissions meta_context = Success ["image-view"]) ∧
  ¬ (extractPermissions
       (mkContext "uploadImage" JsOther (JsPermissions ["image-view"])
          (ShapedUser (public_view bob_row)) (Returned true)) =
     Success ["image-view"]).
Proof.
  split; [|split].
  - apply (proj2 (extractPermissions_success upload_context
                    ["image-upload"])). by left.
  - apply (proj2 (extractPermissions_success meta_context ["image-view"])).
    right. split; [by left|done].
  - intros Hsuccess.
    apply (proj1 (extractPermissions_success _ _)) in Hsuccess.
    by destruct Hsuccess as [?|[[?|?] _]].
Defined.

End MoreExamples.
